(** * DRIC publication pipeline: discovery scraper and fetch/classify glue

    A shallow embedding of [scripts/fetch_ucc_scholar.py] and
    [scripts/check_dric.py].

    Conventions of the embedding
    - Python [str] is [string]; characters above 127 are opaque (neither
      whitespace, digit nor cased), so the text functions below are the
      ASCII fragment of [str.split], [str.strip], [str.lower],
      [str.upper] and of the regular expression class [\d].
    - Python [int] is [Z].
    - An exception that the source lets escape is an explicit error
      value; an exception that the source catches is a branch.
    - The browser and the two remote services are oracles: records of
      functions giving what the outside world answers.
    - [time.monotonic()] is a clock field of the process state, in
      milliseconds; [time.sleep d] advances it by [d]. *)

From stdpp Require Import gmap strings list.
From Stdlib Require Import ZArith Ascii String List Lia Bool.
Import ListNotations.

Local Open Scope string_scope.
Local Open Scope Z_scope.
Local Open Scope list_scope.
#[local] Set Warnings "-clear-no-such-hyp".

(** ** Text primitives *)

Module Text.

(** [str.isspace] on one ASCII character: TAB..CR, FS..US and SPACE. *)
Definition is_space (c : ascii) : bool :=
  let n := N_of_ascii c in
  ((9 <=? n)%N && (n <=? 13)%N) || ((28 <=? n)%N && (n <=? 32)%N).

(** The class [\d]. *)
Definition is_digit (c : ascii) : bool :=
  let n := N_of_ascii c in (48 <=? n)%N && (n <=? 57)%N.

Definition digit_val (c : ascii) : Z := Z.of_N (N_of_ascii c) - 48.

Definition to_lower (c : ascii) : ascii :=
  let n := N_of_ascii c in
  if (65 <=? n)%N && (n <=? 90)%N then ascii_of_N (n + 32) else c.

Definition to_upper (c : ascii) : ascii :=
  let n := N_of_ascii c in
  if (97 <=? n)%N && (n <=? 122)%N then ascii_of_N (n - 32) else c.

Fixpoint map_chars (f : ascii -> ascii) (s : string) : string :=
  match s with
  | EmptyString => EmptyString
  | String c s' => String (f c) (map_chars f s')
  end.

Definition lower (s : string) : string := map_chars to_lower s.
Definition upper (s : string) : string := map_chars to_upper s.

(** Truthiness of a [str]. *)
Definition truthy (s : string) : bool :=
  match s with EmptyString => false | String _ _ => true end.

Fixpoint lstrip (s : string) : string :=
  match s with
  | EmptyString => EmptyString
  | String c s' => if is_space c then lstrip s' else s
  end.

Fixpoint rstrip (s : string) : string :=
  match s with
  | EmptyString => EmptyString
  | String c s' =>
      let r := rstrip s' in
      if is_space c && negb (truthy r) then EmptyString else String c r
  end.

Definition strip (s : string) : string := lstrip (rstrip s).

(** [str.split()] without argument: maximal runs of non-whitespace. *)
Fixpoint split (s : string) : list string :=
  match s with
  | EmptyString => []
  | String c s' =>
      if is_space c then split s'
      else match s' with
           | EmptyString => [String c EmptyString]
           | String c' _ =>
               if is_space c' then String c EmptyString :: split s'
               else match split s' with
                    | t :: ts => String c t :: ts
                    | [] => [String c EmptyString]
                    end
           end
  end.

(** [s.startswith(p)] *)
Fixpoint startswith (p s : string) : bool :=
  match p, s with
  | EmptyString, _ => true
  | String a p', String b s' => Ascii.eqb a b && startswith p' s'
  | String _ _, EmptyString => false
  end.

(** [s.endswith(p)] *)
Definition endswith (p s : string) : bool :=
  let n := String.length s in
  let m := String.length p in
  (m <=? n)%nat && String.eqb (String.substring (n - m) m s) p.

(** [p in s] *)
Fixpoint contains (p s : string) : bool :=
  startswith p s ||
  match s with
  | EmptyString => false
  | String _ s' => contains p s'
  end.

(** [int(s)] on a string of decimal digits. *)
Fixpoint int_digits (acc : Z) (s : string) : Z :=
  match s with
  | EmptyString => acc
  | String c s' => int_digits (10 * acc + digit_val c) s'
  end.

Definition four (a b c d : ascii) : string :=
  String a (String b (String c (String d EmptyString))).

Definition digits4 (a b c d : ascii) : bool :=
  is_digit a && is_digit b && is_digit c && is_digit d.

(** [re.search(r"(\d{4})", s).group(1)]; [None] when nothing matches. *)
Fixpoint search4 (s : string) : option string :=
  match s with
  | EmptyString => None
  | String a t =>
      match t with
      | String b (String c (String d _)) =>
          if digits4 a b c d then Some (four a b c d) else search4 t
      | _ => None
      end
  end.

(** [re.findall(r"\d{4}", s)]: leftmost, non-overlapping matches. *)
Fixpoint findall4 (s : string) : list string :=
  match s with
  | EmptyString => []
  | String a t =>
      match t with
      | String b (String c (String d rest)) =>
          if digits4 a b c d then four a b c d :: findall4 rest
          else findall4 t
      | _ => []
      end
  end.

(** [s[0]]; [None] is the [IndexError] of an empty string. *)
Definition index0 (s : string) : option string :=
  match s with
  | EmptyString => None
  | String c _ => Some (String c EmptyString)
  end.

End Text.

(** ** Name-variant generator ([fetch_ucc_scholar.build_queries]) *)

Module Queries.
Import Text.

(** [f"{a} {b}"] *)
Definition spaced (a b : string) : string := a +:+ " " +:+ b.

(** ["".join(m[0] for m in middles)] *)
Fixpoint join_initials (middles : list string) : option string :=
  match middles with
  | [] => Some EmptyString
  | m :: ms =>
      i ← index0 m;
      r ← join_initials ms;
      Some (i +:+ r)
  end.

(** [for m in middles: variants.add(f"{m[0]} {last}")] *)
Fixpoint add_middles (last : string) (middles : list string)
    (variants : gset string) : option (gset string) :=
  match middles with
  | [] => Some variants
  | m :: ms =>
      i ← index0 m;
      add_middles last ms (variants ∪ {[ spaced i last ]})
  end.

(** [[f"{m[0]} {last}" for m in middles]] *)
Fixpoint middle_variants (last : string) (middles : list string)
    : option (list string) :=
  match middles with
  | [] => Some []
  | m :: ms =>
      i ← index0 m;
      r ← middle_variants last ms;
      Some (spaced i last :: r)
  end.

Definition mem (v : string) (l : list string) : bool :=
  existsb (String.eqb v) l.

(** [for v in preferred_order: if v and v not in ordered: ordered.append(v)] *)
Definition append_preferred (ordered : list string) (v : string) : list string :=
  if truthy v && negb (mem v ordered) then ordered ++ [v] else ordered.

(** [for v in variants: if v not in ordered: ordered.append(v)] *)
Definition append_variant (ordered : list string) (v : string) : list string :=
  if negb (mem v ordered) then ordered ++ [v] else ordered.

(** [parts[1:-1]] *)
Definition middles_of (parts : list string) : list string :=
  removelast (tail parts).

(** [build_queries(full_name)].  The Python set [variants] is a [gset];
    iterating over it is [elements], whose order is unspecified, like
    the set's.  [None] stands for an escaping [IndexError]. *)
Definition build_queries (full_name : string) : option (list string) :=
  let parts :=
    map strip (List.filter (fun p => truthy (strip p)) (split full_name)) in
  match parts with
  | [] => Some [full_name]
  | first :: _ =>
      let last := List.last parts first in
      let middles := middles_of parts in
      f0 ← index0 first;
      let variants : gset string :=
        {[ strip full_name ]} ∪ {[ spaced f0 last ]} in
      variants ← add_middles last middles variants;
      mids ← join_initials middles;
      let initials_concat := f0 +:+ mids in
      let variants :=
        if truthy initials_concat
        then variants ∪ {[ spaced initials_concat last ]} else variants in
      '(variants, mid_last_concat) ←
        match middles with
        | [] => Some (variants, EmptyString)
        | _ :: _ =>
            mids' ← join_initials middles;
            l0 ← index0 last;
            let mid_last_concat := mids' +:+ l0 in
            Some (variants ∪ {[ spaced first mid_last_concat ]}, mid_last_concat)
        end;
      f0' ← index0 first;
      let preferred_order := [strip full_name; spaced f0' last] in
      mv ← middle_variants last middles;
      let preferred_order := preferred_order ++ mv in
      let preferred_order :=
        if truthy initials_concat
        then preferred_order ++ [spaced initials_concat last]
        else preferred_order in
      let preferred_order :=
        match middles with
        | [] => preferred_order
        | _ :: _ => preferred_order ++ [spaced first mid_last_concat]
        end in
      let ordered := fold_left append_preferred preferred_order [] in
      let ordered := fold_left append_variant (elements variants) ordered in
      Some ordered
  end.

End Queries.

(** ** Virtualized table scraper ([fetch_ucc_scholar.scrape_for_name]) *)

Module Scraper.
Import Text.

(** What the DOM holds in one [datatable-row-wrapper]. *)
Record Cells := mkCells {
  authors_cell : string;          (* inner text of AUTHORS_CELL *)
  title_anchor : string;          (* inner text of TITLE_ANCHOR *)
  title_href : option string;     (* its href attribute *)
  year_cell : string              (* inner text of YEAR_CELL *)
}.

(** What the portal shows for one query, after the two clicks on the
    YEAR header were attempted.  The loop reads the table once per
    pass; passes are numbered from 0. *)
Record Table := mkTable {
  rows_appear : bool;             (* wait_for_selector(TABLE_ROW) succeeds *)
  row_count : nat -> Z;           (* rows.count() read at the given pass *)
  cells : nat -> Z -> Cells;      (* rows.nth(i) as seen at the given pass *)
  scroll_ok : nat -> bool         (* scroller.evaluate succeeds at that pass *)
}.

(** (authors, title, year_text, link) *)
Definition Row : Type := string * string * string * string.

(** [int(re.search(r"(\d{4})", year_text).group(1))], [None] on failure *)
Definition parse_year (year_text : string) : option Z :=
  match search4 year_text with
  | Some g => Some (int_digits 0 g)
  | None => None
  end.

(** [range(lo, hi)] *)
Definition range (lo hi : Z) : list Z :=
  map (fun k => lo + Z.of_nat k) (seq 0 (Z.to_nat (hi - lo))).

(** [min(count, per_name_limit if per_name_limit is not None else inf)] *)
Definition stop_index (count : Z) (per_name_limit : option Z) : Z :=
  match per_name_limit with
  | Some l => Z.min count l
  | None => count
  end.

(** [xs[:l]] *)
Definition slice_to {A} (l : Z) (xs : list A) : list A :=
  if 0 <=? l then firstn (Z.to_nat l) xs
  else firstn (Z.to_nat (Z.of_nat (List.length xs) + l)) xs.

Definition read_row (c : Cells) : Row :=
  (strip (authors_cell c), strip (title_anchor c), strip (year_cell c),
   match title_href c with
   | Some h => if truthy h then h else EmptyString
   | None => EmptyString
   end).

(** How the [for] loop over the new indices ends. *)
Inductive for_exit :=
| Completed (results : list Row)    (* ran to the end of the range *)
| Returned (results : list Row).    (* [return results] inside the loop *)

Fixpoint extract_rows (t : Table) (pass : nat) (year_min : Z)
    (idxs : list Z) (results : list Row) : for_exit :=
  match idxs with
  | [] => Completed results
  | i :: rest =>
      let '(authors, title, year_text, link) := read_row (cells t pass i) in
      let pub_year := parse_year year_text in
      let below :=
        match pub_year with
        | Some y => y <? year_min
        | None => false
        end in
      if below then Returned results
      else extract_rows t pass year_min rest
             (results ++ [(authors, title, year_text, link)])
  end.

Definition finish (per_name_limit : option Z) (results : list Row) : list Row :=
  match per_name_limit with
  | Some l => slice_to l results
  | None => results
  end.

Definition limit_hit (per_name_limit : option Z) (results : list Row) : bool :=
  match per_name_limit with
  | Some l => l <=? Z.of_nat (List.length results)
  | None => false
  end.

(** The [while True] loop; [fuel] bounds the number of passes and
    [None] means the bound was reached. *)
Fixpoint scroll_loop (fuel : nat) (t : Table) (year_min : Z)
    (per_name_limit : option Z) (pass : nat) (last_count : Z)
    (results : list Row) : option (list Row) :=
  match fuel with
  | O => None
  | S fuel' =>
      let count := row_count t pass in
      match extract_rows t pass year_min
              (range (last_count + 1) (stop_index count per_name_limit))
              results with
      | Returned r => Some r
      | Completed results =>
          if (count =? last_count) || limit_hit per_name_limit results
          then Some (finish per_name_limit results)
          else
            let last_count := count in
            if scroll_ok t pass
            then scroll_loop fuel' t year_min per_name_limit (S pass)
                   last_count results
            else Some (finish per_name_limit results)
      end
  end.

(** [scrape_for_name(page, query, year_min, year_max, per_name_limit)];
    [page] gives the table the portal shows for a query. *)
Definition scrape_for_name (fuel : nat) (page : string -> Table)
    (query : string) (year_min year_max : Z)
    (per_name_limit : option Z) : option (list Row) :=
  let t := page query in
  if rows_appear t
  then scroll_loop fuel t year_min per_name_limit 0%nat (-1) []
  else Some [].

(** *** Simulated tables *)

(** Decimal text of a number below 10000, as four digits. *)
Definition digit_char (d : Z) : ascii := ascii_of_N (Z.to_N (48 + d)).

Definition year_text (y : Z) : string :=
  four (digit_char (y / 1000 mod 10)) (digit_char (y / 100 mod 10))
       (digit_char (y / 10 mod 10)) (digit_char (y mod 10)).

(** Row [n] carries year [2025 - n]; the table shows [counts pass]
    rows at each pass and always scrolls. *)
Definition descending_table (counts : nat -> Z) : Table :=
  {| rows_appear := true;
     row_count := counts;
     cells := fun _ n =>
       {| authors_cell := "A"; title_anchor := "T";
          title_href := Some "/p"; year_cell := year_text (2025 - n) |};
     scroll_ok := fun _ => true |}.

Definition descending_row (n : Z) : Row :=
  ("A", "T", year_text (2025 - n), "/p").

(** Three rows at the first pass, ten from the second pass on. *)
Definition batches_3_10 (pass : nat) : Z :=
  match pass with O => 3 | _ => 10 end.

(** Every row carries the same year; [counts] as above. *)
Definition flat_table (counts : nat -> Z) : Table :=
  {| rows_appear := true;
     row_count := counts;
     cells := fun _ n =>
       {| authors_cell := "A"; title_anchor := year_text n;
          title_href := None; year_cell := "2024" |};
     scroll_ok := fun _ => true |}.

Definition flat_row (n : Z) : Row := ("A", year_text n, "2024", "").

(** Three rows, then six, then six again. *)
Definition batches_3_6 (pass : nat) : Z :=
  match pass with O => 3 | _ => 6 end.

End Scraper.

(** ** Fetch and classify pipeline ([check_dric]) *)

Module Dric.
Import Text.

(** *** The outside world *)

(** What [firecrawl_client.scrape_url] returns. *)
Inductive scrape_result :=
| ResultDict (markdown text : option string)  (* a dict and its two keys *)
| ResultOther (str : string).                 (* anything else, as str(result) *)

(** A remote call either returns or raises; [message] is [str(exc)]. *)
Inductive reply (A : Type) :=
| Ok (a : A)
| Raises (message : string).
Arguments Ok {A} a.
Arguments Raises {A} message.

Record scrape_opts := mkOpts {
  formats : list string;
  timeout : Z;
  blockAds : bool;
  proxy : string;
  waitFor : option Z
}.

(** What the browser finds behind one citation-page URL. *)
Record Citation := mkCitation {
  opens : bool;                     (* ctx.new_page() and page.goto succeed *)
  title_link : option string;       (* href of "#gsc_oci_title a"; nothing
                                       when absent or when the lookup raises *)
  table_link : option string;       (* href of the ninth row of the table,
                                       likewise *)
  repo_file : option (option string) (* after page.goto(table_link): the href of
                                       the file link, or the outer nothing
                                       when the navigation or lookup raises *)
}.

(** The two services answer their n-th request (counted from 0) after
    some milliseconds; the browser context shows citation pages;
    [netloc] is [urlparse(url).netloc] and [urljoin] is
    [urllib.parse.urljoin], nothing standing for a raised exception. *)
Record World := mkWorld {
  scrape_url : nat -> string -> scrape_opts -> Z * reply scrape_result;
  llm_invoke : nat -> string -> Z * reply (option string);
  citation_page : string -> Citation;
  netloc : string -> option string;
  urljoin : string -> string -> option string
}.

(** *** Process state *)

Inductive pause :=
| Pacing (d : Z)      (* sleep of the minimum-interval check *)
| Backoff (d : Z).    (* sleep after a throttling error *)

Definition pause_ms (p : pause) : Z :=
  match p with Pacing d => d | Backoff d => d end.

Inductive call :=
| Crawl (url : string)     (* _crawl_article(url) entered *)
| Ask (text : string).     (* _ask_dric(text) entered *)

(** The module globals, the clock, and a record of what the process
    did: its sleeps, the requests it issued (with the clock reading at
    the moment of issue) and the wrappers it entered, oldest first. *)
Record State := mkState {
  _ARTICLE_CACHE : gmap string string;
  _DRIC_CACHE : gmap string string;
  _LAST_FIRECRAWL_CALL : option Z;
  _LAST_GROQ_CALL : option Z;
  clock : Z;
  pauses : list pause;
  firecrawl_requests : list (Z * string * scrape_opts);
  groq_requests : list (Z * string);
  calls : list call
}.

(** The globals as the module leaves them once imported. *)
Definition at_import : State :=
  {| _ARTICLE_CACHE := ∅; _DRIC_CACHE := ∅;
     _LAST_FIRECRAWL_CALL := None; _LAST_GROQ_CALL := None;
     clock := 0; pauses := []; firecrawl_requests := [];
     groq_requests := []; calls := [] |}.

Definition _FIRECRAWL_MIN_INTERVAL : Z := 2000.
Definition _GROQ_MIN_INTERVAL : Z := 1000.

Definition PROMPT_TEMPLATE (text : string) : string :=
  "Answer YES or NO only. Does the following text acknowledge funding or support from "
  +:+ "the Directorate of Research Innovation and Consultancy (DRIC) of the University of Cape Coast"
  +:+ "Look for phrases like 'Directorate of Research Innovation and Consultancy', or 'DRIC'"
  +:+ String "010" (String "010" text).

(** *** State monad *)

Definition M (A : Type) : Type := State -> A * State.

Definition ret {A} (a : A) : M A := fun s => (a, s).

Definition bind {A B} (m : M A) (k : A -> M B) : M B :=
  fun s => let (a, s') := m s in k a s'.

Notation "x <- m ;; k" := (bind m (fun x => k))
  (at level 100, m at next level, right associativity).

Definition get : M State := fun s => (s, s).

Definition set_clock (t : Z) (s : State) : State :=
  {| _ARTICLE_CACHE := _ARTICLE_CACHE s; _DRIC_CACHE := _DRIC_CACHE s;
     _LAST_FIRECRAWL_CALL := _LAST_FIRECRAWL_CALL s;
     _LAST_GROQ_CALL := _LAST_GROQ_CALL s;
     clock := t; pauses := pauses s;
     firecrawl_requests := firecrawl_requests s;
     groq_requests := groq_requests s; calls := calls s |}.

Definition log_pause (p : pause) (s : State) : State :=
  {| _ARTICLE_CACHE := _ARTICLE_CACHE s; _DRIC_CACHE := _DRIC_CACHE s;
     _LAST_FIRECRAWL_CALL := _LAST_FIRECRAWL_CALL s;
     _LAST_GROQ_CALL := _LAST_GROQ_CALL s;
     clock := clock s; pauses := pauses s ++ [p];
     firecrawl_requests := firecrawl_requests s;
     groq_requests := groq_requests s; calls := calls s |}.

Definition log_scrape (r : Z * string * scrape_opts) (s : State) : State :=
  {| _ARTICLE_CACHE := _ARTICLE_CACHE s; _DRIC_CACHE := _DRIC_CACHE s;
     _LAST_FIRECRAWL_CALL := _LAST_FIRECRAWL_CALL s;
     _LAST_GROQ_CALL := _LAST_GROQ_CALL s;
     clock := clock s; pauses := pauses s;
     firecrawl_requests := firecrawl_requests s ++ [r];
     groq_requests := groq_requests s; calls := calls s |}.

Definition log_invoke (r : Z * string) (s : State) : State :=
  {| _ARTICLE_CACHE := _ARTICLE_CACHE s; _DRIC_CACHE := _DRIC_CACHE s;
     _LAST_FIRECRAWL_CALL := _LAST_FIRECRAWL_CALL s;
     _LAST_GROQ_CALL := _LAST_GROQ_CALL s;
     clock := clock s; pauses := pauses s;
     firecrawl_requests := firecrawl_requests s;
     groq_requests := groq_requests s ++ [r]; calls := calls s |}.

Definition log_call (c : call) (s : State) : State :=
  {| _ARTICLE_CACHE := _ARTICLE_CACHE s; _DRIC_CACHE := _DRIC_CACHE s;
     _LAST_FIRECRAWL_CALL := _LAST_FIRECRAWL_CALL s;
     _LAST_GROQ_CALL := _LAST_GROQ_CALL s;
     clock := clock s; pauses := pauses s;
     firecrawl_requests := firecrawl_requests s;
     groq_requests := groq_requests s; calls := calls s ++ [c] |}.

Definition set_article (url text : string) (s : State) : State :=
  {| _ARTICLE_CACHE := <[url := text]> (_ARTICLE_CACHE s);
     _DRIC_CACHE := _DRIC_CACHE s;
     _LAST_FIRECRAWL_CALL := _LAST_FIRECRAWL_CALL s;
     _LAST_GROQ_CALL := _LAST_GROQ_CALL s;
     clock := clock s; pauses := pauses s;
     firecrawl_requests := firecrawl_requests s;
     groq_requests := groq_requests s; calls := calls s |}.

Definition set_dric (digest answer : string) (s : State) : State :=
  {| _ARTICLE_CACHE := _ARTICLE_CACHE s;
     _DRIC_CACHE := <[digest := answer]> (_DRIC_CACHE s);
     _LAST_FIRECRAWL_CALL := _LAST_FIRECRAWL_CALL s;
     _LAST_GROQ_CALL := _LAST_GROQ_CALL s;
     clock := clock s; pauses := pauses s;
     firecrawl_requests := firecrawl_requests s;
     groq_requests := groq_requests s; calls := calls s |}.

Definition set_last_groq (t : Z) (s : State) : State :=
  {| _ARTICLE_CACHE := _ARTICLE_CACHE s; _DRIC_CACHE := _DRIC_CACHE s;
     _LAST_FIRECRAWL_CALL := _LAST_FIRECRAWL_CALL s;
     _LAST_GROQ_CALL := Some t;
     clock := clock s; pauses := pauses s;
     firecrawl_requests := firecrawl_requests s;
     groq_requests := groq_requests s; calls := calls s |}.

Definition modify (f : State -> State) : M unit := fun s => (tt, f s).

(** [time.monotonic()] *)
Definition monotonic : M Z := fun s => (clock s, s).

(** [time.sleep(d)] *)
Definition sleep (p : pause) : M unit :=
  modify (fun s => set_clock (clock s + pause_ms p) (log_pause p s)).

Section Wrappers.
Variable W : World.
(** [hashlib.sha256(text.encode("utf-8")).hexdigest()] *)
Variable sha256_hexdigest : string -> string.

(** [firecrawl_client.scrape_url(url=url, **scrape_opts)] *)
Definition firecrawl_scrape (url : string) (opts : scrape_opts)
    : M (reply scrape_result) :=
  fun s =>
    let '(ms, r) := scrape_url W (List.length (firecrawl_requests s)) url opts in
    (r, set_clock (clock s + ms) (log_scrape (clock s, url, opts) s)).

(** [llm.invoke([HumanMessage(content=prompt)])], giving [.content] *)
Definition groq_invoke (prompt : string) : M (reply (option string)) :=
  fun s =>
    let '(ms, r) := llm_invoke W (List.length (groq_requests s)) prompt in
    (r, set_clock (clock s + ms) (log_invoke (clock s, prompt) s)).

(** [x or y] on an optional string *)
Definition or_str (x : option string) (y : string) : string :=
  match x with
  | Some v => if truthy v then v else y
  | None => y
  end.

(** ["429" in msg or "rate limit" in msg], [msg = str(exc).lower()] *)
Definition throttled (message : string) : bool :=
  let msg := lower message in
  contains "429" msg || contains "rate limit" msg.

Definition build_opts (url : string) : scrape_opts :=
  {| formats := ["markdown"]; timeout := 45000; blockAds := false;
     proxy := "stealth";
     waitFor := if negb (endswith ".pdf" (lower url)) then Some 500 else None |}.

Definition text_of (result : scrape_result) : string :=
  let text :=
    match result with
    | ResultDict markdown text =>
        or_str markdown (or_str text EmptyString)
    | ResultOther str => str
    end in
  or_str (Some text) EmptyString.

(** The spacing check at the head of each attempt of [_crawl_article]. *)
Definition pace_firecrawl : M unit :=
  s <- get ;;
  match _LAST_FIRECRAWL_CALL s with
  | Some last =>
      now <- monotonic ;;
      let elapsed := now - last in
      if elapsed <? _FIRECRAWL_MIN_INTERVAL
      then sleep (Pacing (_FIRECRAWL_MIN_INTERVAL - elapsed))
      else ret tt
  | None => ret tt
  end.

(** The [for attempt in range(1, max_retries + 1)] loop of
    [_crawl_article]: [Some text] is a [return text] from inside the
    loop, [None] a loop left by [break] or by exhaustion. *)
Fixpoint crawl_attempts (url : string) (opts : scrape_opts)
    (attempts : list Z) : M (option string) :=
  match attempts with
  | [] => ret None
  | attempt :: rest =>
      _ <- pace_firecrawl ;;
      r <- firecrawl_scrape url opts ;;
      match r with
      | Ok result =>
          let text := text_of result in
          _ <- modify (set_article url text) ;;
          ret (Some text)
      | Raises message =>
          if throttled message
          then
            let delay_base := _FIRECRAWL_MIN_INTERVAL in
            let backoff := delay_base * attempt in
            _ <- sleep (Backoff backoff) ;;
            crawl_attempts url opts rest
          else ret None
      end
  end.

Definition _crawl_article (url : string) (max_retries : Z) : M string :=
  _ <- modify (log_call (Crawl url)) ;;
  s <- get ;;
  match _ARTICLE_CACHE s !! url with
  | Some text => ret text
  | None =>
      r <- crawl_attempts url (build_opts url)
             (Scraper.range 1 (max_retries + 1)) ;;
      match r with
      | Some text => ret text
      | None =>
          _ <- modify (set_article url EmptyString) ;;
          ret EmptyString
      end
  end.

(** The spacing check at the head of each attempt of [_ask_dric]. *)
Definition pace_groq : M unit :=
  s <- get ;;
  match _LAST_GROQ_CALL s with
  | Some last =>
      now <- monotonic ;;
      let elapsed := now - last in
      if elapsed <? _GROQ_MIN_INTERVAL
      then sleep (Pacing (_GROQ_MIN_INTERVAL - elapsed))
      else ret tt
  | None => ret tt
  end.

(** ["YES" if answer_raw.startswith("YES") else "NO"] *)
Definition classify (content : option string) : string :=
  let answer_raw := upper (strip (or_str content EmptyString)) in
  if startswith "YES" answer_raw then "YES" else "NO".

Fixpoint ask_attempts (text digest : string) (attempts : list Z)
    : M (option string) :=
  match attempts with
  | [] => ret None
  | attempt :: rest =>
      _ <- pace_groq ;;
      let prompt := PROMPT_TEMPLATE text in
      now <- monotonic ;;
      _ <- modify (set_last_groq now) ;;
      r <- groq_invoke prompt ;;
      match r with
      | Ok content =>
          let answer := classify content in
          _ <- modify (set_dric digest answer) ;;
          ret (Some answer)
      | Raises message =>
          if throttled message
          then
            let backoff := 1500 * attempt in
            _ <- sleep (Backoff backoff) ;;
            ask_attempts text digest rest
          else ret None
      end
  end.

Definition _ask_dric (text : string) (max_retries : Z) : M string :=
  _ <- modify (log_call (Ask text)) ;;
  if negb (truthy text) then ret "NO"
  else
    let digest := sha256_hexdigest text in
    s <- get ;;
    match _DRIC_CACHE s !! digest with
    | Some answer => ret answer
    | None =>
        r <- ask_attempts text digest (Scraper.range 1 (max_retries + 1)) ;;
        match r with
        | Some answer => ret answer
        | None =>
            _ <- modify (set_dric digest "NO") ;;
            ret "NO"
        end
    end.

(** The fallback tiers of [_extract_article_url]: the link of the
    citation table, then the file link of the institutional repository. *)
Definition fallback_link (page : Citation) : option string :=
  match table_link page with
  | None => None
  | Some table_link =>
      if negb (truthy table_link) then None
      else if negb (contains "ir.ucc.edu.gh/xmlui/handle" table_link)
      then
        match netloc W table_link with
        | None => None
        | Some host =>
            if negb (contains "scholar.google" host) then Some table_link
            else None
        end
      else
        match repo_file page with
        | Some (Some repo_file) =>
            if truthy repo_file
            then
              if startswith "/" repo_file
              then urljoin W table_link repo_file
              else Some repo_file
            else None
        | Some None => None
        | None => None
        end
  end.

(** [_extract_article_url(ctx, scholar_url)]; every exception ends in
    [None], and the page is closed on all paths. *)
Definition _extract_article_url (scholar_url : string) : option string :=
  let page := citation_page W scholar_url in
  if negb (opens page) then None
  else
    match title_link page with
    | Some link =>
        if truthy link && startswith "http" link
        then
          match netloc W link with
          | None => None
          | Some host =>
              if negb (contains "scholar.google" host) then Some link
              else fallback_link page
          end
        else fallback_link page
    | None => fallback_link page
    end.

(** One line of [raw_publications.csv]. *)
Record Publication := mkPublication {
  authors : string;
  title : string;
  year : Z;
  scholar_link : string
}.

Record Output := mkOutput {
  out_authors : string;
  out_title : string;
  out_year : Z;
  out_scholar_link : string;
  dric : string
}.

Definition emit (row : Publication) (answer : string) : Output :=
  {| out_authors := authors row; out_title := title row;
     out_year := year row; out_scholar_link := scholar_link row;
     dric := answer |}.

(** [_process_row(ctx, row)]; the two [asyncio.to_thread] calls are
    awaited on the spot, so they are plain calls here. *)
Definition _process_row (row : Publication) : M Output :=
  match _extract_article_url (scholar_link row) with
  | None => ret (emit row "NF")
  | Some article_url =>
      if negb (truthy article_url) then ret (emit row "NF")
      else
        article_text <- _crawl_article article_url 3 ;;
        dric_ans <-
          (if truthy article_text
           then _ask_dric article_text 4
           else ret "NF") ;;
        ret (emit row dric_ans)
  end.


End Wrappers.

End Dric.

(** ** Publication collector ([fetch_ucc_scholar.fetch_period]) *)

Module Collector.
Import Text.

Inductive error :=
| FileNotFoundError (path : string)
| ValueError (message : string)
| IndexError.

(** How a run of [fetch_period] ends. *)
Inductive outcome :=
| Raised (e : error)
| Saved (out_file : string) (records : list (string * string * Z * string))
| Unfinished.       (* a scrape was still scrolling when the fuel ran out *)

(** [min(years)] and [max(years)] of a non-empty list, given by its head
    and tail. *)
Definition min_of (y : Z) (ys : list Z) : Z := fold_left Z.min ys y.
Definition max_of (y : Z) (ys : list Z) : Z := fold_left Z.max ys y.

Definition years_in_period (period : string) : list Z :=
  map (int_digits 0) (findall4 period).

(** "Determine numeric year bounds from provided period string" *)
Definition year_bounds (period : string) : error + Z * Z :=
  match years_in_period period with
  | [] =>
      inl (ValueError ("Cannot determine year(s) from period string '" +:+ period
                       +:+ "'. Provide as 'YYYY' or 'YYYY-YYYY'."))
  | [y] => inr (y, y)
  | y :: ys => inr (min_of y ys, max_of y ys)
  end.

(** The loop over the rows of one query: rows without a year are
    skipped, rows outside the period are dropped. *)
Fixpoint keep_in_period (year_min year_max : Z) (rows : list Scraper.Row)
    (collected : list (string * string * Z * string))
    : list (string * string * Z * string) :=
  match rows with
  | [] => collected
  | (authors, title, year_text, link) :: rest =>
      match Scraper.parse_year year_text with
      | None => keep_in_period year_min year_max rest collected
      | Some pub_year =>
          if (year_min <=? pub_year) && (pub_year <=? year_max)
          then keep_in_period year_min year_max rest
                 (collected ++ [(authors, title, pub_year, link)])
          else keep_in_period year_min year_max rest collected
      end
  end.

(** What is left to run once the period is parsed and the page is open:
    the portal and a bound on the scrolling of each query. *)
Record Browser := mkBrowser {
  page : string -> Scraper.Table;
  fuel : nat
}.

Fixpoint over_queries (b : Browser) (year_min year_max : Z)
    (per_name_limit : Z) (queries : list string)
    (collected : list (string * string * Z * string))
    : option (list (string * string * Z * string)) :=
  match queries with
  | [] => Some collected
  | q :: rest =>
      rows ← Scraper.scrape_for_name (fuel b) (page b) q year_min year_max
               (if 0 <? per_name_limit then Some per_name_limit else None);
      over_queries b year_min year_max per_name_limit rest
        (keep_in_period year_min year_max rows collected)
  end.

Fixpoint over_awardees (b : Browser) (year_min year_max : Z)
    (per_name_limit : Z) (awardees : list string)
    (collected : list (string * string * Z * string)) : outcome + list (string * string * Z * string) :=
  match awardees with
  | [] => inr collected
  | awardee :: rest =>
      match Queries.build_queries awardee with
      | None => inl (Raised IndexError)
      | Some queries =>
          match over_queries b year_min year_max per_name_limit queries collected with
          | None => inl Unfinished
          | Some collected =>
              over_awardees b year_min year_max per_name_limit rest collected
          end
      end
  end.

(** [df_out.drop_duplicates(inplace=True)]: the first of equal rows stays. *)
Fixpoint drop_duplicates (seen rows : list (string * string * Z * string))
    : list (string * string * Z * string) :=
  match rows with
  | [] => []
  | r :: rest =>
      if bool_decide (r ∈ seen) then drop_duplicates seen rest
      else r :: drop_duplicates (seen ++ [r]) rest
  end.

(** [fetch_period(period, per_name_limit)]; [files] gives, for the path
    of an awardee file that exists, its non-empty awardee names.  The
    output directory, made before the period is parsed, and the log
    lines are left out. *)
Definition fetch_period (files : string -> option (list string))
    (b : Browser) (period : string) (per_name_limit : Z) : outcome :=
  let csv_awardee :=
    "Data/awardees_by_period/awardees_" +:+ period +:+ ".csv" in
  match files csv_awardee with
  | None => Raised (FileNotFoundError csv_awardee)
  | Some awardees =>
      let out_file := "Data/" +:+ period +:+ "/raw_publications.csv" in
      match year_bounds period with
      | inl e => Raised e
      | inr (year_min, year_max) =>
          (* async with async_playwright() as p: ... *)
          match over_awardees b year_min year_max per_name_limit awardees [] with
          | inl o => o
          | inr collected => Saved out_file (drop_duplicates [] collected)
          end
      end
  end.



End Collector.

(** ** Specification vocabulary *)

Module Spec.
Import Text.

(** No whitespace anywhere in the string. *)
Fixpoint no_space (s : string) : bool :=
  match s with
  | EmptyString => true
  | String c s' => negb (is_space c) && no_space s'
  end.

(** Only whitespace in the string. *)
Fixpoint blank (s : string) : bool :=
  match s with
  | EmptyString => true
  | String c s' => is_space c && blank s'
  end.

(** The first character as a string, nothing for the empty string. *)
Definition initial (s : string) : string :=
  match s with
  | EmptyString => EmptyString
  | String c _ => String c EmptyString
  end.

Definition initials (l : list string) : string :=
  fold_right (fun m acc => initial m +:+ acc) EmptyString l.

(** A list without its repetitions, each element at its first place. *)
Fixpoint keep_first (l : list string) : list string :=
  match l with
  | [] => []
  | x :: r => x :: List.filter (fun y => negb (String.eqb y x)) (keep_first r)
  end.

(** The five groups of variants of a name whose tokens are
    [first :: middles ++ [last]], in the order of preference. *)
Definition preference (stripped first : string) (middles : list string)
    (last : string) : list string :=
  [stripped; Queries.spaced (initial first) last]
  ++ map (fun m => Queries.spaced (initial m) last) middles
  ++ [Queries.spaced (initial first +:+ initials middles) last]
  ++ match middles with
     | [] => []
     | _ :: _ => [Queries.spaced first (initials middles +:+ initial last)]
     end.

(** The test the scraper applies to row [i] before keeping it: its
    year is readable and strictly under the floor. *)
Definition below_floor (t : Scraper.Table) (pass : nat) (year_min i : Z) : bool :=
  match Scraper.parse_year (strip (Scraper.year_cell (Scraper.cells t pass i))) with
  | Some y => y <? year_min
  | None => false
  end.

(** The backoff sleeps among the sleeps of the process, in order. *)
Definition backoffs (ps : list Dric.pause) : list Z :=
  flat_map (fun p => match p with
                     | Dric.Backoff d => [d]
                     | Dric.Pacing _ => []
                     end) ps.

(** A step that only lets time pass, and not in a backoff. *)
Definition idle (s s' : Dric.State) : Prop :=
  Dric._ARTICLE_CACHE s' = Dric._ARTICLE_CACHE s
  /\ Dric._DRIC_CACHE s' = Dric._DRIC_CACHE s
  /\ Dric._LAST_FIRECRAWL_CALL s' = Dric._LAST_FIRECRAWL_CALL s
  /\ Dric._LAST_GROQ_CALL s' = Dric._LAST_GROQ_CALL s
  /\ Dric.firecrawl_requests s' = Dric.firecrawl_requests s
  /\ Dric.groq_requests s' = Dric.groq_requests s
  /\ Dric.calls s' = Dric.calls s
  /\ backoffs (Dric.pauses s') = backoffs (Dric.pauses s).

(** What the fetcher never touches. *)
Definition crawl_frame (s s' : Dric.State) : Prop :=
  Dric._DRIC_CACHE s' = Dric._DRIC_CACHE s
  /\ Dric._LAST_FIRECRAWL_CALL s' = Dric._LAST_FIRECRAWL_CALL s
  /\ Dric._LAST_GROQ_CALL s' = Dric._LAST_GROQ_CALL s
  /\ Dric.groq_requests s' = Dric.groq_requests s.

(** What the classifier never touches. *)
Definition ask_frame (s s' : Dric.State) : Prop :=
  Dric._ARTICLE_CACHE s' = Dric._ARTICLE_CACHE s
  /\ Dric._LAST_FIRECRAWL_CALL s' = Dric._LAST_FIRECRAWL_CALL s
  /\ Dric.firecrawl_requests s' = Dric.firecrawl_requests s.

(** A call of the fetcher that missed the cache: it stored [cached]
    under [url] after [requests] requests and the backoffs [waits]. *)
Definition crawl_effect (s s' : Dric.State) (url cached : string)
    (requests : nat) (waits : list Z) : Prop :=
  Dric._ARTICLE_CACHE s' = <[url := cached]> (Dric._ARTICLE_CACHE s)
  /\ crawl_frame s s'
  /\ Dric.calls s' = Dric.calls s ++ [Dric.Crawl url]
  /\ List.length (Dric.firecrawl_requests s')
     = (List.length (Dric.firecrawl_requests s) + requests)%nat
  /\ backoffs (Dric.pauses s') = backoffs (Dric.pauses s) ++ waits.

(** The same for the classifier and the digest of its text. *)
Definition ask_effect (s s' : Dric.State) (text digest cached : string)
    (requests : nat) (waits : list Z) : Prop :=
  Dric._DRIC_CACHE s' = <[digest := cached]> (Dric._DRIC_CACHE s)
  /\ ask_frame s s'
  /\ Dric.calls s' = Dric.calls s ++ [Dric.Ask text]
  /\ List.length (Dric.groq_requests s')
     = (List.length (Dric.groq_requests s) + requests)%nat
  /\ backoffs (Dric.pauses s') = backoffs (Dric.pauses s) ++ waits.

(** Reply of the extraction service to the [k]-th request issued from
    state [s] on, and of the model likewise. *)
Definition scrape_reply (W : Dric.World) (s : Dric.State) (url : string)
    (k : nat) : Dric.reply Dric.scrape_result :=
  snd (Dric.scrape_url W (List.length (Dric.firecrawl_requests s) + k)%nat url
         (Dric.build_opts url)).

Definition model_reply (W : Dric.World) (s : Dric.State) (text : string)
    (k : nat) : Dric.reply (option string) :=
  snd (Dric.llm_invoke W (List.length (Dric.groq_requests s) + k)%nat
         (Dric.PROMPT_TEMPLATE text)).

(** [p] occurs in [s]; [p] starts [s]. *)
Definition has_infix (p s : string) : Prop :=
  exists pre post, s = pre +:+ p +:+ post.

Definition has_prefix (p s : string) : Prop :=
  exists rest, s = p +:+ rest.

(** A throttling-class message: it holds "429" or, in any letter case,
    "rate limit". *)
Definition throttling (message : string) : Prop :=
  has_infix "429" (lower message) \/ has_infix "rate limit" (lower message).

(** A throttling-class error, and any other error. *)
Definition throttles {A} (r : Dric.reply A) : Prop :=
  exists message, r = Dric.Raises message /\ throttling message.

Definition fails_otherwise {A} (r : Dric.reply A) : Prop :=
  exists message, r = Dric.Raises message /\ ~ throttling message.

(** [attempt * base] for the attempts 1..n. *)
Definition linear_backoffs (base : Z) (n : nat) : list Z :=
  map (fun a => base * a) (Scraper.range 1 (1 + Z.of_nat n)).

(** Every cached label is "YES" or "NO". *)
Definition labels_only (s : Dric.State) : Prop :=
  forall digest answer,
    Dric._DRIC_CACHE s !! digest = Some answer -> answer = "YES" \/ answer = "NO".

(** What the process may do between two calls of interest. *)
Inductive op :=
| DoCrawl (url : string) (max_retries : Z)
| DoAsk (text : string) (max_retries : Z)
| DoRow (row : Dric.Publication).

Definition run_op (W : Dric.World) (sha256_hexdigest : string -> string)
    (o : op) (s : Dric.State) : Dric.State :=
  match o with
  | DoCrawl url max_retries => snd (Dric._crawl_article W url max_retries s)
  | DoAsk text max_retries =>
      snd (Dric._ask_dric W sha256_hexdigest text max_retries s)
  | DoRow row => snd (Dric._process_row W sha256_hexdigest row s)
  end.

Definition run_ops (W : Dric.World) (sha256_hexdigest : string -> string)
    (ops : list op) (s : Dric.State) : Dric.State :=
  fold_left (fun s o => run_op W sha256_hexdigest o s) ops s.

(** Four decimal digits in a row somewhere in the string. *)
Definition has_year (s : string) : Prop :=
  exists pre a b c d post,
    s = pre +:+ four a b c d +:+ post /\ digits4 a b c d = true.

End Spec.

(** ** Sample worlds *)

Module Worlds.
Import Dric.

(** A world whose services answer their n-th request as given, the
    extraction service after 300 ms and the model after 200 ms, and
    whose citation pages all open and carry [link] as title link. *)
Definition world_of (scrapes : nat -> reply scrape_result)
    (answers : nat -> reply (option string)) (link : option string) : World :=
  {| scrape_url := fun n _ _ => (300, scrapes n);
     llm_invoke := fun n _ => (200, answers n);
     citation_page := fun _ =>
       {| opens := true; title_link := link; table_link := None;
          repo_file := None |};
     netloc := fun _ => Some "journal.example";
     urljoin := fun base path => Some (base +:+ path) |}.

Definition article : scrape_result :=
  ResultDict (Some "This work was funded by DRIC.") None.

(** Throttled [n] times, then [after]. *)
Definition throttle_first {A} (n : nat) (after : reply A) (k : nat) : reply A :=
  if (k <? n)%nat then Raises "HTTP 429 Too Many Requests" else after.

Definition always_ok : World :=
  world_of (fun _ => Ok article) (fun _ => Ok (Some " yes. "))
    (Some "https://journal.example/a1").

Definition unresolved : World :=
  world_of (fun _ => Ok article) (fun _ => Ok (Some "YES")) None.

Definition empty_article : World :=
  world_of (fun _ => Ok (ResultDict None (Some EmptyString)))
    (fun _ => Ok (Some "YES")) (Some "https://journal.example/a1").

Definition always_throttled : World :=
  world_of (throttle_first 3 (Ok article))
    (throttle_first 4 (Ok (Some "YES")))
    (Some "https://journal.example/a1").

Definition throttled_then_broken : World :=
  world_of (throttle_first 1 (Raises "401 Unauthorized"))
    (throttle_first 0 (Raises "connection reset"))
    (Some "https://journal.example/a1").

Definition throttled_then_ok : World :=
  world_of (throttle_first 2 (Ok article))
    (throttle_first 1 (Ok (Some "No."))) 
    (Some "https://journal.example/a1").

(** Stands for the digest in the samples: distinct texts, distinct keys. *)
Definition plain_digest (text : string) : string := text.

Definition sample_row : Publication :=
  {| authors := "A Mensah"; title := "On funding"; year := 2021;
     scholar_link := "https://scholar.example/citations?id=1" |}.

End Worlds.

(** ** Classification run ([check_dric.process_period_async]) *)

Module Runner.
Import Text Dric.

(** How a run of [process_period_async] ends. *)
Inductive outcome :=
| Missing (raw_file : string)                   (* FileNotFoundError *)
| Written (out_file : string)
    (records : list (string * string * Z * string)).



End Runner.

(** ** Invariants of the process *)

Module Invariants.
Import Text.

(** Consecutive instants at least [interval] apart. *)
Fixpoint spaced_by (interval : Z) (times : list Z) : Prop :=
  match times with
  | [] => True
  | t :: rest =>
      match rest with
      | [] => True
      | t' :: _ => t + interval <= t'
      end
      /\ spaced_by interval rest
  end.

(** The services take no negative time to answer. *)
Definition nonneg_latency (W : Dric.World) : Prop :=
  (forall n url opts, 0 <= fst (Dric.scrape_url W n url opts))
  /\ (forall n prompt, 0 <= fst (Dric.llm_invoke W n prompt)).

(** The instants at which the model was called. *)
Definition groq_times (s : Dric.State) : list Z :=
  map fst (Dric.groq_requests s).

(** The classifier's timestamp is that of a past instant, no model call
    is later than it, and the calls are a minimum interval apart. *)
Definition groq_paced (s : Dric.State) : Prop :=
  spaced_by Dric._GROQ_MIN_INTERVAL (groq_times s)
  /\ match Dric._LAST_GROQ_CALL s with
     | None => Dric.groq_requests s = []
     | Some last =>
         last <= Dric.clock s /\ Forall (fun t => t <= last) (groq_times s)
     end.


(** The rendered row count never shrinks and is never negative. *)
Definition growing (t : Scraper.Table) : Prop :=
  (forall pass, 0 <= Scraper.row_count t pass)
  /\ (forall pass, Scraper.row_count t pass <= Scraper.row_count t (S pass)).

(** A row that some pass of the scrape could read: a rendered index,
    under the cap when there is one. *)
Definition readable (t : Scraper.Table) (per_name_limit : option Z)
    (r : Scraper.Row) : Prop :=
  exists pass i,
    0 <= i < Scraper.stop_index (Scraper.row_count t pass) per_name_limit
    /\ r = Scraper.read_row (Scraper.cells t pass i).

(** A row the early-stop test lets through. *)
Definition at_or_above (year_min : Z) (r : Scraper.Row) : Prop :=
  match Scraper.parse_year (snd (fst r)) with
  | Some y => year_min <= y
  | None => True
  end.




End Invariants.

(** * Properties *)

(** ** Text primitives *)

Section TextFacts.
Import Text Spec.

Lemma length_append (s1 s2 : string) :
  String.length (s1 +:+ s2) = (String.length s1 + String.length s2)%nat.
Proof. induction s1 as [|c s1 IH]; simpl; [reflexivity|now rewrite IH]. Qed.

Lemma split_tokens (s : string) :
  Forall (fun t => truthy t = true /\ no_space t = true) (split s).
Proof.
  induction s as [|c s IH]; simpl; [constructor|].
  destruct (is_space c) eqn:Hc; [exact IH|].
  destruct s as [|c' s'].
  - repeat constructor. simpl. now rewrite Hc.
  - destruct (is_space c') eqn:Hc'.
    + constructor; [|exact IH]. split; [reflexivity|]. simpl. now rewrite Hc.
    + destruct (split (String c' s')) as [|t ts] eqn:Hs.
      * repeat constructor. simpl. now rewrite Hc.
      * inversion IH as [|? ? [Ht1 Ht2] Hts]; subst.
        constructor; [|exact Hts]. split; [reflexivity|].
        simpl. now rewrite Hc, Ht2.
Qed.

Lemma rstrip_no_space (t : string) : no_space t = true -> rstrip t = t.
Proof.
  induction t as [|c t IH]; simpl; [reflexivity|].
  intros [Hc Ht]%andb_prop. rewrite (IH Ht).
  apply negb_true_iff in Hc. now rewrite Hc.
Qed.

Lemma lstrip_no_space (t : string) : no_space t = true -> lstrip t = t.
Proof.
  destruct t as [|c t]; simpl; [reflexivity|].
  intros [Hc _]%andb_prop. apply negb_true_iff in Hc. now rewrite Hc.
Qed.

Lemma strip_no_space (t : string) : no_space t = true -> strip t = t.
Proof.
  intros H. unfold strip. rewrite (rstrip_no_space _ H).
  now apply lstrip_no_space.
Qed.

Lemma split_nil_blank (s : string) : split s = [] -> blank s = true.
Proof.
  induction s as [|c s IH]; simpl; [reflexivity|].
  destruct (is_space c) eqn:Hc; [exact IH|].
  destruct s as [|c' s']; [discriminate|].
  destruct (is_space c'); [discriminate|].
  destruct (split (String c' s')); discriminate.
Qed.

Lemma rstrip_blank (s : string) : blank s = true -> rstrip s = EmptyString.
Proof.
  induction s as [|c s IH]; simpl; [reflexivity|].
  intros [Hc Hs]%andb_prop. now rewrite (IH Hs), Hc.
Qed.

Lemma rstrip_head (c : ascii) (s : string) :
  is_space c = false -> rstrip (String c s) = String c (rstrip s).
Proof. intros Hc. simpl. now rewrite Hc. Qed.

(** A name with exactly one token strips to that token. *)
Lemma split_single_strip (s t : string) : split s = [t] -> strip s = t.
Proof.
  revert t. induction s as [|c s IH]; intros t; simpl; [discriminate|].
  destruct (is_space c) eqn:Hc.
  - intros Hs. pose proof (IH _ Hs) as IHs.
    pose proof (split_tokens s) as Htok. rewrite Hs in Htok.
    apply Forall_inv in Htok. destruct Htok as [Ht _].
    unfold strip in *. simpl.
    destruct (rstrip s) as [|r0 r] eqn:Hr.
    + simpl in IHs. rewrite <- IHs in Ht. discriminate.
    + rewrite Hc. simpl. rewrite Hc. exact IHs.
  - destruct s as [|c' s'].
    + intros [= <-]. unfold strip. simpl. rewrite Hc. simpl. now rewrite Hc.
    + destruct (is_space c') eqn:Hc'.
      * remember (split (String c' s')) as rest eqn:Hrest.
        intros [= <- Hnil]. subst rest. apply split_nil_blank in Hnil.
        unfold strip. rewrite rstrip_head by exact Hc.
        rewrite (rstrip_blank _ Hnil). simpl. now rewrite Hc.
      * destruct (split (String c' s')) as [|t' ts] eqn:Hs.
        { intros [= <-]. apply split_nil_blank in Hs. simpl in Hs.
          rewrite Hc' in Hs. discriminate. }
        intros [= <- ->]. specialize (IH _ eq_refl).
        unfold strip in *. rewrite rstrip_head by exact Hc.
        rewrite rstrip_head in IH by exact Hc'.
        rewrite rstrip_head by exact Hc'.
        simpl in IH. rewrite Hc' in IH. simpl. rewrite Hc. now rewrite IH.
Qed.

Lemma startswith_prefix (p s : string) :
  startswith p s = true <-> has_prefix p s.
Proof.
  revert s. induction p as [|a p IH]; intros s.
  - split; [intros _; now exists s|reflexivity].
  - destruct s as [|b s]; simpl.
    + split; [discriminate|]. intros [rest H]. discriminate.
    + rewrite andb_true_iff, IH. split.
      * intros [Hab [rest ->]]. apply Ascii.eqb_eq in Hab. subst b. now exists rest.
      * intros [rest [= <- ->]]. split; [apply Ascii.eqb_refl|now exists rest].
Qed.

Lemma contains_infix (p s : string) :
  contains p s = true <-> has_infix p s.
Proof.
  split.
  - induction s as [|c s IH].
    + simpl. rewrite orb_false_r. intros [rest H]%startswith_prefix.
      exists EmptyString, rest. exact H.
    + simpl contains. intros [H|H]%orb_prop.
      * apply startswith_prefix in H. destruct H as [rest H].
        exists EmptyString, rest. exact H.
      * destruct (IH H) as (pre & post & ->). now exists (String c pre), post.
  - intros (pre & post & ->). induction pre as [|c pre IH].
    + assert (startswith p (p +:+ post) = true) as H
        by (apply startswith_prefix; now exists post).
      destruct (p +:+ post) eqn:E; simpl; simpl in H; rewrite H; reflexivity.
    + change (String c pre +:+ p +:+ post) with (String c (pre +:+ p +:+ post)).
      simpl contains. rewrite IH. apply orb_true_r.
Qed.

Lemma throttled_spec (message : string) :
  Dric.throttled message = true <-> throttling message.
Proof.
  unfold Dric.throttled, throttling.
  now rewrite orb_true_iff, !contains_infix.
Qed.

Lemma not_throttled (message : string) :
  Dric.throttled message = false <-> ~ throttling message.
Proof.
  rewrite <- throttled_spec. destruct (Dric.throttled message); split;
    intros H; try discriminate; try reflexivity; try (now intros E).
  now exfalso.
Qed.

End TextFacts.

(** ** Name-variant generator *)

Section QueriesFacts.
Import Text Spec Queries.

Lemma mem_In (v : string) (l : list string) : mem v l = true <-> In v l.
Proof.
  unfold mem. rewrite existsb_exists. split.
  - intros [x [Hx Heq]]. apply String.eqb_eq in Heq. now subst.
  - intros H. exists v. split; [exact H|apply String.eqb_refl].
Qed.

Lemma mem_app (v : string) (l1 l2 : list string) :
  mem v (l1 ++ l2) = mem v l1 || mem v l2.
Proof. unfold mem. apply existsb_app. Qed.

Lemma parts_of_split (s : string) :
  map strip (List.filter (fun p => truthy (strip p)) (split s)) = split s.
Proof.
  pose proof (split_tokens s) as H. induction H as [|t ts [Ht Hs] _ IH].
  - reflexivity.
  - simpl. rewrite (strip_no_space _ Hs), Ht. simpl.
    now rewrite (strip_no_space _ Hs), IH.
Qed.

Lemma index0_initial (t : string) :
  truthy t = true -> index0 t = Some (initial t).
Proof. destruct t; [discriminate|reflexivity]. Qed.

Lemma join_initials_total (middles : list string) :
  Forall (fun t => truthy t = true) middles ->
  join_initials middles = Some (initials middles).
Proof.
  induction 1 as [|m ms Hm _ IH]; simpl; [reflexivity|].
  now rewrite (index0_initial _ Hm), IH.
Qed.

Lemma middle_variants_total (last : string) (middles : list string) :
  Forall (fun t => truthy t = true) middles ->
  middle_variants last middles
  = Some (map (fun m => spaced (initial m) last) middles).
Proof.
  induction 1 as [|m ms Hm _ IH]; simpl; [reflexivity|].
  now rewrite (index0_initial _ Hm), IH.
Qed.

Lemma add_middles_total (last : string) (middles : list string)
    (variants : gset string) :
  Forall (fun t => truthy t = true) middles ->
  add_middles last middles variants
  = Some (variants ∪ list_to_set (map (fun m => spaced (initial m) last) middles)).
Proof.
  intros H. revert variants.
  induction H as [|m ms Hm _ IH]; intros variants; simpl.
  - f_equal. set_solver.
  - rewrite (index0_initial _ Hm). simpl. rewrite IH. f_equal. set_solver.
Qed.

Lemma filter_filter_ext (f g h : string -> bool) (l : list string) :
  (forall x, h x = f x && g x) ->
  List.filter f (List.filter g l) = List.filter h l.
Proof.
  intros E. induction l as [|x l IH]; simpl; [reflexivity|].
  rewrite E. destruct (g x); simpl.
  - destruct (f x); simpl; now rewrite IH.
  - rewrite andb_false_r. exact IH.
Qed.

(** The first loop keeps each new non-empty variant at its first place. *)
Lemma append_preferred_keep_first (l acc : list string) :
  Forall (fun v => truthy v = true) l ->
  fold_left append_preferred l acc
  = acc ++ List.filter (fun y => negb (mem y acc)) (keep_first l).
Proof.
  intros H. revert acc. induction H as [|x l Hx _ IH]; intros acc; simpl.
  - now rewrite app_nil_r.
  - unfold append_preferred at 2. rewrite Hx. simpl.
    destruct (mem x acc) eqn:Hm; simpl.
    + rewrite IH. f_equal. symmetry. apply filter_filter_ext.
      intros y. destruct (String.eqb y x) eqn:E; simpl.
      * apply String.eqb_eq in E. subst y. now rewrite Hm.
      * now rewrite andb_true_r.
    + rewrite IH, <- app_assoc. simpl. f_equal. f_equal.
      symmetry. apply filter_filter_ext.
      intros y. rewrite mem_app. simpl. unfold mem at 2. simpl.
      rewrite orb_false_r, negb_orb. reflexivity.
Qed.

Lemma keep_first_In (l : list string) (v : string) :
  In v (keep_first l) <-> In v l.
Proof.
  induction l as [|x l IH]; simpl; [tauto|].
  rewrite filter_In, IH. destruct (String.eqb v x) eqn:E.
  - apply String.eqb_eq in E. subst. simpl. intuition congruence.
  - apply String.eqb_neq in E. simpl. intuition congruence.
Qed.

Lemma keep_first_NoDup (l : list string) : List.NoDup (keep_first l).
Proof.
  induction l as [|x l IH]; simpl; constructor.
  - rewrite filter_In, String.eqb_refl. simpl. intros [_ H]. discriminate.
  - now apply List.NoDup_filter.
Qed.

(** The second loop adds nothing when the set holds known variants only. *)
Lemma append_variant_known (vs ordered : list string) :
  (forall v, In v vs -> In v ordered) ->
  fold_left append_variant vs ordered = ordered.
Proof.
  induction vs as [|v vs IH]; intros H; simpl; [reflexivity|].
  unfold append_variant at 2.
  assert (mem v ordered = true) as -> by (apply mem_In, H; now left).
  simpl. apply IH. intros w Hw. apply H. now right.
Qed.

Lemma append_preferred_nil (l : list string) :
  Forall (fun v => truthy v = true) l ->
  fold_left append_preferred l [] = keep_first l.
Proof.
  intros H. rewrite (append_preferred_keep_first _ _ H). simpl.
  induction (keep_first l) as [|x k IH]; simpl; [reflexivity|].
  now rewrite IH.
Qed.

Lemma Forall_removelast {A} (P : A -> Prop) (l : list A) :
  Forall P l -> Forall P (removelast l).
Proof.
  induction 1 as [|x l Hx Hl IH]; simpl; [constructor|].
  destruct l; [constructor|]. constructor; assumption.
Qed.

Lemma Forall_last {A} (P : A -> Prop) (l : list A) (d : A) :
  P d -> Forall P l -> P (List.last l d).
Proof.
  intros Hd. induction 1 as [|x l Hx Hl IH]; simpl; [exact Hd|].
  destruct l; [exact Hx|exact IH].
Qed.

Lemma spaced_truthy (a b : string) : truthy (spaced a b) = true.
Proof. unfold spaced. destruct a; reflexivity. Qed.

Lemma preference_truthy (stripped first last : string) (middles : list string) :
  truthy stripped = true ->
  Forall (fun v => truthy v = true) (preference stripped first middles last).
Proof.
  intros H. unfold preference.
  apply Forall_app; split; [|apply Forall_app; split; [|apply Forall_app; split]].
  - repeat constructor; [exact H|apply spaced_truthy].
  - apply Forall_forall. intros v [m [<- _]]%in_map_iff. apply spaced_truthy.
  - repeat constructor. apply spaced_truthy.
  - destruct middles; repeat constructor. apply spaced_truthy.
Qed.

Lemma strip_truthy (s t : string) (ts : list string) :
  split s = t :: ts -> truthy (strip s) = true.
Proof.
  revert t ts. unfold strip.
  induction s as [|c s IH]; intros t ts; [discriminate|].
  destruct (is_space c) eqn:Hc.
  - simpl split. rewrite Hc. intros Hs. specialize (IH _ _ Hs).
    simpl. destruct (rstrip s) as [|r0 r]; [discriminate|].
    rewrite Hc. simpl. rewrite Hc. exact IH.
  - intros _. rewrite rstrip_head by exact Hc. simpl. now rewrite Hc.
Qed.

(** What [build_queries] computes from the tokens of the name. *)
Lemma build_queries_tokens (full_name first : string) (rest : list string) :
  split full_name = first :: rest ->
  build_queries full_name
  = Some (keep_first (preference (strip full_name) first (removelast rest)
                        (List.last (first :: rest) first))).
Proof.
  intros Hs. unfold build_queries. rewrite parts_of_split, Hs.
  pose proof (split_tokens full_name) as Htok. rewrite Hs in Htok.
  assert (Forall (fun t => truthy t = true) (first :: rest)) as Htr.
  { eapply Forall_impl; [|exact Htok]. now intros t [Ht _]. }
  assert (truthy first = true) as Hf by now inversion Htr.
  assert (truthy (List.last (first :: rest) first) = true) as HL.
  { now apply (Forall_last (fun t => truthy t = true)). }
  assert (Forall (fun t => truthy t = true) (removelast rest)) as HMs.
  { apply Forall_removelast. now inversion Htr. }
  pose proof (strip_truthy _ _ _ Hs) as Hstrip.
  change (middles_of (first :: rest)) with (removelast rest).
  set (L := List.last (first :: rest) first) in *.
  set (Ms := removelast rest) in *.
  pose proof (preference_truthy _ first L Ms Hstrip) as Hpref.
  rewrite (index0_initial _ Hf). cbn [mbind option_bind].
  rewrite (add_middles_total _ _ _ HMs). cbn [mbind option_bind].
  rewrite (join_initials_total _ HMs). cbn [mbind option_bind].
  rewrite (middle_variants_total _ _ HMs).
  rewrite (index0_initial _ HL).
  assert (truthy (initial first +:+ initials Ms) = true) as ->.
  { destruct first; [discriminate|reflexivity]. }
  clearbody Ms L. clear Hs Htok Htr rest.
  destruct Ms as [|m ms]; cbn [mbind option_bind]; f_equal.
  - match goal with
    | |- fold_left _ _ (fold_left _ ?P _) = _ =>
        replace P with (preference (strip full_name) first [] L)
          by (unfold preference; simpl; reflexivity)
    end.
    rewrite (append_preferred_nil _ Hpref).
    apply append_variant_known. intros v Hv. apply keep_first_In.
    apply list_elem_of_In in Hv. apply elem_of_elements in Hv.
    apply list_elem_of_In. unfold preference. set_solver.
  - match goal with
    | |- fold_left _ _ (fold_left _ ?P _) = _ =>
        replace P with (preference (strip full_name) first (m :: ms) L)
          by (unfold preference; simpl; rewrite <- ?app_assoc; reflexivity)
    end.
    rewrite (append_preferred_nil _ Hpref).
    apply append_variant_known. intros v Hv. apply keep_first_In.
    apply list_elem_of_In in Hv. apply elem_of_elements in Hv.
    apply list_elem_of_In. unfold preference. set_solver.
Qed.

Lemma keep_first_twice (a b : string) :
  a <> b -> keep_first [a; b; b] = [a; b].
Proof.
  intros H. simpl. rewrite String.eqb_refl. simpl.
  destruct (String.eqb b a) eqn:E; [|reflexivity].
  apply String.eqb_eq in E. congruence.
Qed.

Lemma spaced_longer (a b : string) : b <> spaced a b.
Proof.
  intros H. apply (f_equal String.length) in H. unfold spaced in H.
  rewrite !length_append in H. simpl in H. lia.
Qed.

(** C7 (as amended).  For every name of at least two tokens,
    [build_queries] returns, each variant once and at its first place,
    in this order: the full name without its surrounding whitespace;
    the first initial and the last name; each middle initial and the
    last name, left to right; the concatenated initials and the last
    name; and, when there are middle tokens, the first name and the
    concatenated middle and last initials.  For "Kwame Asante Boateng"
    these are "Kwame Asante Boateng", "K Boateng", "A Boateng",
    "KA Boateng", "Kwame AB". *)
Theorem build_queries_preference_order :
  build_queries "Kwame Asante Boateng"
  = Some ["Kwame Asante Boateng"; "K Boateng"; "A Boateng"; "KA Boateng"; "Kwame AB"]
  /\ forall (full_name first last : string) (middles : list string),
      split full_name = first :: middles ++ [last] ->
      build_queries full_name
      = Some (keep_first (preference (strip full_name) first middles last))
      /\ List.NoDup (keep_first (preference (strip full_name) first middles last)).
Proof.
  split.
  - rewrite (build_queries_tokens _ "Kwame" ["Asante"; "Boateng"]) by reflexivity.
    reflexivity.
  - intros full_name first last middles Hs. split; [|apply keep_first_NoDup].
    rewrite (build_queries_tokens _ _ _ Hs).
    rewrite removelast_last.
    change (first :: middles ++ [last]) with ((first :: middles) ++ [last]).
    now rewrite last_last.
Qed.

Lemma build_queries_preference_order_witness :
  split "  Efua K. A. Sutherland " = "Efua" :: ["K."; "A."] ++ ["Sutherland"]
  /\ build_queries "  Efua K. A. Sutherland "
     = Some ["Efua K. A. Sutherland"; "E Sutherland"; "K Sutherland";
             "A Sutherland"; "EKA Sutherland"; "Efua KAS"].
Proof.
  split; [reflexivity|].
  exact (proj1 (proj2 build_queries_preference_order
                  "  Efua K. A. Sutherland " "Efua" "Sutherland" ["K."; "A."]
                  eq_refl)).
Defined.

(** C7 as stated fails: the first variant is not the original name
    when the name carries surrounding whitespace. *)
Lemma build_queries_first_is_stripped :
  build_queries " Ama Mensah" = Some ["Ama Mensah"; "A Mensah"]
  /\ ~ (exists rest, build_queries " Ama Mensah" = Some (" Ama Mensah" :: rest)).
Proof.
  assert (build_queries " Ama Mensah" = Some ["Ama Mensah"; "A Mensah"]) as E.
  { rewrite (build_queries_tokens _ "Ama" ["Mensah"]) by reflexivity. reflexivity. }
  split; [exact E|]. intros [rest H]. rewrite E in H. discriminate.
Qed.

(** C8 (as amended).  For a name of a single token, [build_queries]
    does not raise and returns two variants: the token, then its
    initial followed by the token itself; the second is not a
    duplicate of the first and stays. *)
Theorem build_queries_single_token (full_name t : string) :
  split full_name = [t] ->
  build_queries full_name = Some [t; spaced (initial t) t].
Proof.
  intros Hs. rewrite (build_queries_tokens _ _ _ Hs).
  rewrite (split_single_strip _ _ Hs).
  pose proof (split_tokens full_name) as Htok. rewrite Hs in Htok.
  apply Forall_inv in Htok. destruct Htok as [Ht _].
  destruct t as [|c t]; [discriminate|].
  change (preference (String c t) (String c t) (removelast [])
            (List.last [String c t] (String c t)))
    with [String c t; spaced (initial (String c t)) (String c t);
          spaced (initial (String c t)) (String c t)].
  now rewrite (keep_first_twice _ _ (spaced_longer _ _)).
Qed.

Lemma build_queries_single_token_witness :
  split "Plato" = ["Plato"]
  /\ build_queries "Plato" = Some ["Plato"; "P Plato"].
Proof.
  split; [reflexivity|].
  exact (build_queries_single_token "Plato" "Plato" eq_refl).
Defined.

(** C8 as stated fails: "Plato" yields two variants, not one. *)
Lemma build_queries_plato_two_variants :
  build_queries "Plato" <> Some ["Plato"].
Proof.
  rewrite (build_queries_tokens "Plato" "Plato" []) by reflexivity. discriminate.
Qed.

End QueriesFacts.

(** ** Period parsing *)

Section PeriodFacts.
Import Text Spec Collector.

Lemma findall4_unfold (a b c d : ascii) (rest : string) :
  findall4 (String a (String b (String c (String d rest))))
  = if digits4 a b c d then four a b c d :: findall4 rest
    else findall4 (String b (String c (String d rest))).
Proof. reflexivity. Qed.

Lemma findall4_short (s : string) :
  (String.length s < 4)%nat -> findall4 s = [].
Proof.
  destruct s as [|a [|b [|c [|d s]]]]; simpl; try reflexivity; lia.
Qed.

Lemma has_year_cons (x : ascii) (s : string) :
  has_year s -> has_year (String x s).
Proof.
  intros (pre & a & b & c & d & post & -> & Hd).
  exists (String x pre), a, b, c, d, post. split; [reflexivity|exact Hd].
Qed.

Lemma findall4_has_year (s : string) : findall4 s <> [] -> has_year s.
Proof.
  induction s as [|a t IH]; [now intros H|].
  destruct t as [|b [|c [|d rest]]]; try (now intros H).
  rewrite findall4_unfold. destruct (digits4 a b c d) eqn:Hd.
  - intros _. exists EmptyString, a, b, c, d, rest. split; [reflexivity|exact Hd].
  - intros H. apply has_year_cons, IH, H.
Qed.

Lemma has_year_findall4 (s : string) : has_year s -> findall4 s <> [].
Proof.
  intros (pre & a & b & c & d & post & -> & Hd).
  induction pre as [|x pre IH].
  - change (EmptyString +:+ four a b c d +:+ post)
      with (String a (String b (String c (String d post)))).
    rewrite findall4_unfold, Hd. discriminate.
  - change (String x pre +:+ four a b c d +:+ post)
      with (String x (pre +:+ four a b c d +:+ post)).
    destruct (pre +:+ four a b c d +:+ post) as [|b' [|c' [|d' rest]]] eqn:E;
      try (exfalso; apply IH; reflexivity).
    rewrite findall4_unfold. destruct (digits4 x b' c' d'); [discriminate|exact IH].
Qed.

(** The pattern finds something exactly when the string holds four
    digits in a row. *)
Lemma years_in_period_nil (period : string) :
  years_in_period period = [] <-> ~ has_year period.
Proof.
  unfold years_in_period. split.
  - intros H Hy. apply has_year_findall4 in Hy. apply Hy.
    now destruct (findall4 period).
  - intros H. destruct (findall4 period) eqn:E; [reflexivity|].
    exfalso. apply H, findall4_has_year. now rewrite E.
Qed.

Lemma min_of_spec (y : Z) (ys : list Z) :
  In (min_of y ys) (y :: ys) /\ forall z, In z (y :: ys) -> min_of y ys <= z.
Proof.
  unfold min_of. revert y. induction ys as [|x ys IH]; intros y; simpl.
  - split; [now left|]. intros z [<-|[]]. lia.
  - destruct (IH (Z.min y x)) as [Hin Hle]. split.
    + destruct Hin as [Hin|Hin]; [|now right; right].
      rewrite <- Hin. destruct (Z.min_spec y x) as [[_ ->]|[_ ->]]; auto.
    + intros z [<-|[<-|Hz]].
      * specialize (Hle (Z.min y x) (or_introl eq_refl)). lia.
      * specialize (Hle (Z.min y x) (or_introl eq_refl)). lia.
      * apply Hle. now right.
Qed.

Lemma max_of_spec (y : Z) (ys : list Z) :
  In (max_of y ys) (y :: ys) /\ forall z, In z (y :: ys) -> z <= max_of y ys.
Proof.
  unfold max_of. revert y. induction ys as [|x ys IH]; intros y; simpl.
  - split; [now left|]. intros z [<-|[]]. lia.
  - destruct (IH (Z.max y x)) as [Hin Hle]. split.
    + destruct Hin as [Hin|Hin]; [|now right; right].
      rewrite <- Hin. destruct (Z.max_spec y x) as [[_ ->]|[_ ->]]; auto.
    + intros z [<-|[<-|Hz]].
      * specialize (Hle (Z.max y x) (or_introl eq_refl)). lia.
      * specialize (Hle (Z.max y x) (or_introl eq_refl)). lia.
      * apply Hle. now right.
Qed.

Lemma year_bounds_some (period : string) (y : Z) (ys : list Z) :
  years_in_period period = y :: ys ->
  year_bounds period = inr (min_of y ys, max_of y ys).
Proof.
  intros H. unfold year_bounds. rewrite H. now destruct ys.
Qed.

(** C9.  The period is parsed by extracting every run of four digits;
    the bounds are the least and the greatest of them: "2016-2017"
    gives (2016, 2017) and "2020" gives (2020, 2020).  A period that
    holds no four digits in a row makes the parse raise [ValueError],
    and [fetch_period] then ends with an error whatever the browser
    would have shown: with that [ValueError] whenever the awardee file
    was found. *)
Theorem period_parsing :
  year_bounds "2016-2017" = inr (2016, 2017)
  /\ year_bounds "2020" = inr (2020, 2020)
  /\ (forall period y ys,
        years_in_period period = y :: ys ->
        exists year_min year_max,
          year_bounds period = inr (year_min, year_max)
          /\ In year_min (y :: ys) /\ In year_max (y :: ys)
          /\ forall z, In z (y :: ys) -> year_min <= z <= year_max)
  /\ (forall period, has_year period <-> years_in_period period <> [])
  /\ (forall period,
        ~ has_year period ->
        exists message,
          year_bounds period = inl (ValueError message)
          /\ (forall files per_name_limit,
                exists e, forall b,
                  fetch_period files b period per_name_limit = Raised e)
          /\ (forall files awardees per_name_limit b,
                files ("Data/awardees_by_period/awardees_" +:+ period +:+ ".csv")
                = Some awardees ->
                fetch_period files b period per_name_limit
                = Raised (ValueError message))).
Proof.
  split; [reflexivity|]. split; [reflexivity|]. split; [|split].
  - intros period y ys H. exists (min_of y ys), (max_of y ys).
    destruct (min_of_spec y ys) as [Hmin Hle], (max_of_spec y ys) as [Hmax Hge].
    split; [now apply year_bounds_some|]. split; [exact Hmin|].
    split; [exact Hmax|]. intros z Hz. split; [now apply Hle|now apply Hge].
  - intros period. split.
    + intros Hy E. now apply years_in_period_nil in E.
    + intros Hne. unfold years_in_period in Hne.
      apply findall4_has_year. intros E. apply Hne. now rewrite E.
  - intros period Hno. apply years_in_period_nil in Hno.
    eexists. split; [unfold year_bounds; rewrite Hno; reflexivity|]. split.
    + intros files per_name_limit. unfold fetch_period, year_bounds.
      rewrite Hno. destruct (files _); eexists; intros b; reflexivity.
    + intros files awardees per_name_limit b Hf. unfold fetch_period, year_bounds.
      now rewrite Hf, Hno.
Qed.

Lemma no_year_here : ~ has_year "no-year-here".
Proof. apply years_in_period_nil. reflexivity. Qed.

Lemma period_parsing_witness :
  years_in_period "2015/2016 to 2018" = 2015 :: [2016; 2018]
  /\ ~ has_year "no-year-here"
  /\ (exists year_min year_max,
        year_bounds "2015/2016 to 2018" = inr (year_min, year_max)
        /\ In year_min (2015 :: [2016; 2018]) /\ In year_max (2015 :: [2016; 2018])
        /\ forall z, In z (2015 :: [2016; 2018]) -> year_min <= z <= year_max)
  /\ (exists message,
        year_bounds "no-year-here" = inl (ValueError message)
        /\ (forall files per_name_limit,
              exists e, forall b,
                fetch_period files b "no-year-here" per_name_limit = Raised e)
        /\ (forall files awardees per_name_limit b,
              files ("Data/awardees_by_period/awardees_" +:+ "no-year-here" +:+ ".csv")
              = Some awardees ->
              fetch_period files b "no-year-here" per_name_limit
              = Raised (ValueError message))).
Proof.
  split; [reflexivity|]. split; [exact no_year_here|]. split.
  - exact (proj1 (proj2 (proj2 period_parsing)) "2015/2016 to 2018" 2015 [2016; 2018] eq_refl).
  - exact (proj2 (proj2 (proj2 (proj2 period_parsing))) "no-year-here" no_year_here).
Defined.

End PeriodFacts.

(** ** Virtualized table scraper *)

Section ScraperFacts.
Import Text Scraper Spec.

Lemma extract_rows_step (t : Table) (pass : nat) (year_min i : Z)
    (rest : list Z) (results : list Row) :
  extract_rows t pass year_min (i :: rest) results
  = if below_floor t pass year_min i then Returned results
    else extract_rows t pass year_min rest
           (results ++ [read_row (cells t pass i)]).
Proof.
  unfold below_floor. simpl.
  destruct (cells t pass i) as [a ti h y]. unfold read_row. simpl.
  reflexivity.
Qed.

(** Rows that are not below the floor, among them every row without a
    readable year, are all kept. *)
Lemma extract_rows_keeps (t : Table) (pass : nat) (year_min : Z)
    (idxs rest : list Z) (results : list Row) :
  Forall (fun j => below_floor t pass year_min j = false) idxs ->
  extract_rows t pass year_min (idxs ++ rest) results
  = extract_rows t pass year_min rest
      (results ++ map (fun j => read_row (cells t pass j)) idxs).
Proof.
  intros H. revert results.
  induction H as [|j idxs Hj _ IH]; intros results.
  - simpl. now rewrite app_nil_r.
  - change ((j :: idxs) ++ rest) with (j :: idxs ++ rest).
    rewrite extract_rows_step, Hj, IH. simpl. now rewrite <- app_assoc.
Qed.

(** The first row below the floor ends the scrape at once, with the
    rows kept so far and without that row. *)
Lemma early_stop (fuel : nat) (t : Table) (year_min : Z)
    (per_name_limit : option Z) (pass : nat) (last_count : Z)
    (results : list Row) (before after : list Z) (i : Z) :
  range (last_count + 1) (stop_index (row_count t pass) per_name_limit)
  = before ++ i :: after ->
  Forall (fun j => below_floor t pass year_min j = false) before ->
  below_floor t pass year_min i = true ->
  scroll_loop (S fuel) t year_min per_name_limit pass last_count results
  = Some (results ++ map (fun j => read_row (cells t pass j)) before).
Proof.
  intros Hr Hb Hi. simpl. rewrite Hr, (extract_rows_keeps _ _ _ _ _ _ Hb).
  now rewrite extract_rows_step, Hi.
Qed.

Lemma unreadable_year_not_below (t : Table) (pass : nat) (year_min i : Z) :
  parse_year (strip (year_cell (cells t pass i))) = None ->
  below_floor t pass year_min i = false.
Proof. unfold below_floor. now intros ->. Qed.

Lemma range_cons (lo hi : Z) : lo < hi -> range lo hi = lo :: range (lo + 1) hi.
Proof.
  intros H. unfold range.
  replace (Z.to_nat (hi - lo)) with (S (Z.to_nat (hi - (lo + 1)))) by lia.
  simpl. f_equal; [lia|]. rewrite <- seq_shift, map_map.
  apply map_ext. intros k. lia.
Qed.

Lemma range_empty (lo hi : Z) : hi <= lo -> range lo hi = [].
Proof. intros H. unfold range. now replace (Z.to_nat (hi - lo)) with O by lia. Qed.

Lemma range_In (lo hi i : Z) : In i (range lo hi) <-> lo <= i < hi.
Proof.
  unfold range. rewrite in_map_iff. split.
  - intros [k [<- Hk%in_seq]]. lia.
  - intros H. exists (Z.to_nat (i - lo)). split; [lia|]. apply in_seq. lia.
Qed.

(** Once a pass has read [c] rows, the next pass starts at index
    [c + 1]: index [c] itself is in no later range. *)
Lemma next_pass_skips (c hi : Z) : ~ In c (range (c + 1) hi).
Proof. rewrite range_In. lia. Qed.

(** With the seven newest rows on screen at the first read and no cap
    below six, the descending table yields rows 0..5. *)
Lemma descending_first_batch (fuel : nat) (counts : nat -> Z)
    (per_name_limit : option Z) (query : string) (year_max : Z) :
  7 <= counts O ->
  match per_name_limit with Some l => 6 <= l | None => True end ->
  scrape_for_name (S fuel) (fun _ => descending_table counts) query 2020 year_max
    per_name_limit
  = Some (map descending_row [0; 1; 2; 3; 4; 5]).
Proof.
  intros Hc Hl. unfold scrape_for_name.
  change (rows_appear (descending_table counts)) with true. cbv iota.
  assert (6 <= stop_index (counts O) per_name_limit) as Hu.
  { unfold stop_index. destruct per_name_limit; lia. }
  destruct (Z.eq_dec (stop_index (counts O) per_name_limit) 6) as [E6|N6].
  - destruct per_name_limit as [l|]; [|unfold stop_index in E6; lia].
    assert (l = 6) as -> by (unfold stop_index in E6; lia).
    cbn [scroll_loop]. change (row_count (descending_table counts) 0%nat) with (counts O).
    rewrite E6. change (range (-1 + 1) 6) with [0; 1; 2; 3; 4; 5].
    replace (extract_rows (descending_table counts) 0 2020 [0; 1; 2; 3; 4; 5] [])
      with (Completed (map descending_row [0; 1; 2; 3; 4; 5]))
      by (vm_compute; reflexivity).
    cbv iota beta. change (limit_hit (Some 6) (map descending_row [0; 1; 2; 3; 4; 5])) with true.
    rewrite orb_true_r. reflexivity.
  - rewrite (early_stop fuel (descending_table counts) 2020 per_name_limit
               O (-1) [] [0; 1; 2; 3; 4; 5]
               (range 7 (stop_index (counts O) per_name_limit)) 6).
    + reflexivity.
    + change (row_count (descending_table counts) 0%nat) with (counts O).
      change (-1 + 1) with 0.
      do 7 (rewrite range_cons by lia; f_equal).
    + repeat constructor.
    + reflexivity.
Qed.

(** C1 at the failing input.  The early stop itself is as claimed: in
    any pass, the first row whose year reads below [year_min] ends the
    scrape with the rows kept so far, that row excluded, and a row
    without a readable year is never such a row.  The example is not:
    the table holds year [2025 - n] in row [n] and shows three rows at
    first and ten after the scroll; with [year_min = 2020] and no cap the
    scrape returns rows 0, 1, 2, 4, 5, so the row of 2019 is left out,
    but so is row 3 (year 2022). *)
Theorem descending_batches_lose_row_3 :
  (forall fuel t year_min per_name_limit pass last_count results before after i,
      range (last_count + 1) (stop_index (row_count t pass) per_name_limit)
      = before ++ i :: after ->
      Forall (fun j => below_floor t pass year_min j = false) before ->
      below_floor t pass year_min i = true ->
      scroll_loop (S fuel) t year_min per_name_limit pass last_count results
      = Some (results ++ map (fun j => read_row (cells t pass j)) before))
  /\ (forall t pass year_min i,
        parse_year (strip (year_cell (cells t pass i))) = None ->
        below_floor t pass year_min i = false)
  /\ (forall n : nat,
        scrape_for_name (2 + n) (fun _ => descending_table batches_3_10) "q"
          2020 2025 None
        = Some (map descending_row [0; 1; 2; 4; 5]))
  /\ map descending_row [0; 1; 2; 4; 5] <> map descending_row [0; 1; 2; 3; 4; 5].
Proof.
  split; [|split; [|split]].
  - intros. now apply early_stop with (after := after) (i := i).
  - intros. now apply unreadable_year_not_below.
  - intros n. vm_compute. reflexivity.
  - discriminate.
Qed.

Lemma descending_batches_lose_row_3_witness :
  range (-1 + 1) (stop_index (row_count (descending_table (fun _ => 10)) 0) None)
  = [0; 1; 2; 3; 4; 5] ++ 6 :: [7; 8; 9]
  /\ scroll_loop 1 (descending_table (fun _ => 10)) 2020 None 0 (-1) []
     = Some ([] ++ map (fun j => read_row (cells (descending_table (fun _ => 10)) 0 j))
                     [0; 1; 2; 3; 4; 5]).
Proof.
  split; [reflexivity|].
  apply (proj1 descending_batches_lose_row_3 O (descending_table (fun _ => 10))
           2020 None O (-1) [] [0; 1; 2; 3; 4; 5] [7; 8; 9] 6).
  - reflexivity.
  - repeat constructor.
  - reflexivity.
Defined.

(** C2 at the failing input.  Every row is within the period; the table
    shows three rows, then six.  Index 3 is rendered at the second pass
    and was not processed at the first, yet the scrape ends without it:
    the second pass walks the indices from 4.  In general the pass that
    follows a read of [c] rows walks a range that starts at [c + 1] and
    so never holds [c]. *)
Theorem growing_table_skips_index_3 :
  (forall n : nat,
      scrape_for_name (3 + n) (fun _ => flat_table batches_3_6) "q" 2020 2025 None
      = Some (map flat_row [0; 1; 2; 4; 5]))
  /\ ~ In (flat_row 3) (map flat_row [0; 1; 2; 4; 5])
  /\ range (batches_3_6 0 + 1) (stop_index (batches_3_6 1) None) = [4; 5]
  /\ (forall c count per_name_limit,
        ~ In c (range (c + 1) (stop_index count per_name_limit))).
Proof.
  split; [intros n; vm_compute; reflexivity|]. split; [|split; [reflexivity|]].
  - vm_compute. intros H. repeat (destruct H as [H|H]; [discriminate|]). exact H.
  - intros c count per_name_limit. apply next_pass_skips.
Qed.

End ScraperFacts.

(** ** Fetch and classify wrappers *)

Section DricFacts.
Import Text Dric Spec.
Variable W : World.
Variable sha256_hexdigest : string -> string.

(** Reads a field through the state updates. *)
Ltac fields :=
  cbn [_ARTICLE_CACHE _DRIC_CACHE _LAST_FIRECRAWL_CALL _LAST_GROQ_CALL clock
       pauses firecrawl_requests groq_requests calls set_article set_dric
       set_clock log_pause log_scrape log_invoke log_call set_last_groq
       fst snd].
Tactic Notation "fields" "in" hyp(H) :=
  cbn [_ARTICLE_CACHE _DRIC_CACHE _LAST_FIRECRAWL_CALL _LAST_GROQ_CALL clock
       pauses firecrawl_requests groq_requests calls set_article set_dric
       set_clock log_pause log_scrape log_invoke log_call set_last_groq
       fst snd] in H.

Lemma crawl_attempts_cons (url : string) (opts : scrape_opts) (a : Z)
    (rest : list Z) (s : State) :
  crawl_attempts W url opts (a :: rest) s
  = let s1 := snd (pace_firecrawl s) in
    let s2 := snd (firecrawl_scrape W url opts s1) in
    match fst (firecrawl_scrape W url opts s1) with
    | Ok result => (Some (text_of result), set_article url (text_of result) s2)
    | Raises message =>
        if throttled message
        then crawl_attempts W url opts rest
               (snd (sleep (Backoff (_FIRECRAWL_MIN_INTERVAL * a)) s2))
        else (None, s2)
    end.
Proof.
  cbn [crawl_attempts]. unfold bind at 1.
  destruct (pace_firecrawl s) as [[] s1]. cbn [snd]. unfold bind at 1.
  destruct (firecrawl_scrape W url opts s1) as [r s2]. cbn [fst snd].
  destruct r as [result|message]; [reflexivity|].
  destruct (throttled message); [|reflexivity].
  unfold bind. destruct (sleep _ s2) as [[] s3]. reflexivity.
Qed.
Lemma backoffs_app (ps qs : list pause) :
  backoffs (ps ++ qs) = backoffs ps ++ backoffs qs.
Proof. unfold backoffs. apply flat_map_app. Qed.

Lemma idle_refl (s : State) : idle s s.
Proof. repeat split. Qed.

Lemma pace_firecrawl_idle (s : State) : idle s (snd (pace_firecrawl s)).
Proof.
  unfold pace_firecrawl, bind, get, monotonic.
  destruct (_LAST_FIRECRAWL_CALL s) as [last|]; [|apply idle_refl].
  destruct (clock s - last <? _FIRECRAWL_MIN_INTERVAL); [|apply idle_refl].
  repeat split. cbn. rewrite backoffs_app. cbn. apply app_nil_r.
Qed.

Lemma pace_groq_idle (s : State) : idle s (snd (pace_groq s)).
Proof.
  unfold pace_groq, bind, get, monotonic.
  destruct (_LAST_GROQ_CALL s) as [last|]; [|apply idle_refl].
  destruct (clock s - last <? _GROQ_MIN_INTERVAL); [|apply idle_refl].
  repeat split. cbn. rewrite backoffs_app. cbn. apply app_nil_r.
Qed.

Lemma range_snoc_step (a : Z) (j : nat) :
  Scraper.range a (a + Z.of_nat (S j))
  = a :: Scraper.range (a + 1) (a + 1 + Z.of_nat j).
Proof.
  rewrite range_cons by lia. f_equal. f_equal. lia.
Qed.

Lemma firecrawl_scrape_reply (url : string) (opts : scrape_opts) (s : State) :
  fst (firecrawl_scrape W url opts s)
  = snd (scrape_url W (List.length (firecrawl_requests s)) url opts).
Proof.
  unfold firecrawl_scrape. now destruct (scrape_url W _ url opts).
Qed.

Lemma firecrawl_scrape_state (url : string) (opts : scrape_opts) (s : State) :
  let s' := snd (firecrawl_scrape W url opts s) in
  _ARTICLE_CACHE s' = _ARTICLE_CACHE s
  /\ _DRIC_CACHE s' = _DRIC_CACHE s
  /\ _LAST_FIRECRAWL_CALL s' = _LAST_FIRECRAWL_CALL s
  /\ _LAST_GROQ_CALL s' = _LAST_GROQ_CALL s
  /\ firecrawl_requests s' = firecrawl_requests s ++ [(clock s, url, opts)]
  /\ groq_requests s' = groq_requests s
  /\ calls s' = calls s
  /\ pauses s' = pauses s.
Proof.
  unfold firecrawl_scrape. destruct (scrape_url W _ url opts). repeat split.
Qed.

Lemma groq_invoke_reply (prompt : string) (s : State) :
  fst (groq_invoke W prompt s)
  = snd (llm_invoke W (List.length (groq_requests s)) prompt).
Proof.
  unfold groq_invoke. now destruct (llm_invoke W _ prompt).
Qed.

Lemma groq_invoke_state (prompt : string) (s : State) :
  let s' := snd (groq_invoke W prompt s) in
  _ARTICLE_CACHE s' = _ARTICLE_CACHE s
  /\ _DRIC_CACHE s' = _DRIC_CACHE s
  /\ _LAST_FIRECRAWL_CALL s' = _LAST_FIRECRAWL_CALL s
  /\ _LAST_GROQ_CALL s' = _LAST_GROQ_CALL s
  /\ firecrawl_requests s' = firecrawl_requests s
  /\ groq_requests s' = groq_requests s ++ [(clock s, prompt)]
  /\ calls s' = calls s
  /\ pauses s' = pauses s.
Proof.
  unfold groq_invoke. destruct (llm_invoke W _ prompt). repeat split.
Qed.

(** One attempt of the fetcher, up to the reply. *)
Lemma crawl_request (url : string) (s : State) :
  let s2 := snd (firecrawl_scrape W url (build_opts url) (snd (pace_firecrawl s))) in
  fst (firecrawl_scrape W url (build_opts url) (snd (pace_firecrawl s)))
  = scrape_reply W s url 0
  /\ _ARTICLE_CACHE s2 = _ARTICLE_CACHE s
  /\ crawl_frame s s2
  /\ calls s2 = calls s
  /\ List.length (firecrawl_requests s2)
     = (List.length (firecrawl_requests s) + 1)%nat
  /\ backoffs (pauses s2) = backoffs (pauses s).
Proof.
  destruct (pace_firecrawl_idle s) as (Ha & Hd & Hlf & Hlg & Hfr & Hgr & Hc & Hb).
  set (s1 := snd (pace_firecrawl s)) in *.
  destruct (firecrawl_scrape_state url (build_opts url) s1)
    as (Ha' & Hd' & Hlf' & Hlg' & Hfr' & Hgr' & Hc' & Hp').
  cbv zeta. rewrite firecrawl_scrape_reply. unfold scrape_reply, crawl_frame.
  rewrite Nat.add_0_r, Hfr, Ha', Hd', Hlf', Hlg', Hfr', Hgr', Hc', Hp'.
  rewrite length_app, Hfr. repeat split; assumption.
Qed.

(** [j] throttled replies in a row: [j] requests, [j] backoffs of
    [2000 * attempt], and the loop goes on with the attempts left. *)
Lemma crawl_attempts_throttled (url : string) (j : nat) :
  forall (a : Z) (rest : list Z) (s : State),
    (forall k, (k < j)%nat -> throttles (scrape_reply W s url k)) ->
    exists s',
      crawl_attempts W url (build_opts url)
        (Scraper.range a (a + Z.of_nat j) ++ rest) s
      = crawl_attempts W url (build_opts url) rest s'
      /\ _ARTICLE_CACHE s' = _ARTICLE_CACHE s
      /\ crawl_frame s s'
      /\ calls s' = calls s
      /\ List.length (firecrawl_requests s')
         = (List.length (firecrawl_requests s) + j)%nat
      /\ backoffs (pauses s')
         = backoffs (pauses s)
           ++ map (fun x => _FIRECRAWL_MIN_INTERVAL * x)
                (Scraper.range a (a + Z.of_nat j)).
Proof.
  induction j as [|j IH]; intros a rest s Hk.
  - exists s. rewrite range_empty by lia. simpl. rewrite app_nil_r.
    repeat split. lia.
  - rewrite range_snoc_step.
    change ((a :: ?l) ++ rest) with (a :: l ++ rest).
    rewrite crawl_attempts_cons. cbv zeta.
    destruct (crawl_request url s) as (Hr & Ha & (Hd & Hlf & Hlg & Hgr) & Hc & Hn & Hb).
    set (s2 := snd (firecrawl_scrape W url (build_opts url) (snd (pace_firecrawl s)))) in *.
    destruct (Hk O ltac:(lia)) as (message & Hr0 & Hm%throttled_spec).
    rewrite Hr, Hr0, Hm.
    set (s3 := snd (sleep (Backoff (_FIRECRAWL_MIN_INTERVAL * a)) s2)).
    destruct (IH (a + 1) rest s3) as (s' & E & Ha' & (Hd' & Hlf' & Hlg' & Hgr') & Hc' & Hn' & Hb').
    { intros k Hlt. unfold scrape_reply.
      change (firecrawl_requests s3) with (firecrawl_requests s2).
      rewrite Hn. replace (_ + 1 + k)%nat
        with (List.length (firecrawl_requests s) + S k)%nat by lia.
      apply Hk. lia. }
    exists s'. split; [exact E|].
    change (_ARTICLE_CACHE s3) with (_ARTICLE_CACHE s2) in Ha'.
    change (_DRIC_CACHE s3) with (_DRIC_CACHE s2) in Hd'.
    change (_LAST_FIRECRAWL_CALL s3) with (_LAST_FIRECRAWL_CALL s2) in Hlf'.
    change (_LAST_GROQ_CALL s3) with (_LAST_GROQ_CALL s2) in Hlg'.
    change (groq_requests s3) with (groq_requests s2) in Hgr'.
    change (calls s3) with (calls s2) in Hc'.
    change (firecrawl_requests s3) with (firecrawl_requests s2) in Hn'.
    change (pauses s3) with (pauses s2 ++ [Backoff (_FIRECRAWL_MIN_INTERVAL * a)]) in Hb'.
    rewrite backoffs_app, Hb in Hb'. cbn [backoffs flat_map] in Hb'.
    unfold crawl_frame.
    rewrite Ha', Ha, Hd', Hd, Hlf', Hlf, Hlg', Hlg, Hgr', Hgr, Hc', Hc, Hn', Hn, Hb'.
    repeat split; [lia|]. rewrite <- app_assoc. reflexivity.
Qed.

Lemma range_split (lo mid hi : Z) :
  lo <= mid <= hi ->
  Scraper.range lo hi = Scraper.range lo mid ++ Scraper.range mid hi.
Proof.
  remember (Z.to_nat (mid - lo)) as n eqn:Hn. revert lo Hn.
  induction n as [|n IH]; intros lo Hn H.
  - assert (lo = mid) as -> by lia. now rewrite (range_empty mid mid) by lia.
  - rewrite (range_cons lo hi), (range_cons lo mid) by lia.
    simpl. f_equal. apply IH; lia.
Qed.

Lemma ask_attempts_cons (text digest : string) (a : Z) (rest : list Z)
    (s : State) :
  ask_attempts W text digest (a :: rest) s
  = let s1 := snd (pace_groq s) in
    let s1' := set_last_groq (clock s1) s1 in
    let s2 := snd (groq_invoke W (PROMPT_TEMPLATE text) s1') in
    match fst (groq_invoke W (PROMPT_TEMPLATE text) s1') with
    | Ok content =>
        (Some (classify content), set_dric digest (classify content) s2)
    | Raises message =>
        if throttled message
        then ask_attempts W text digest rest
               (snd (sleep (Backoff (1500 * a)) s2))
        else (None, s2)
    end.
Proof.
  cbn [ask_attempts]. unfold bind at 1.
  destruct (pace_groq s) as [[] s1]. cbn [snd].
  unfold bind at 1. unfold monotonic at 1. unfold bind at 1.
  unfold modify at 1. unfold bind at 1.
  destruct (groq_invoke W (PROMPT_TEMPLATE text) (set_last_groq (clock s1) s1))
    as [r s2]. cbn [fst snd].
  destruct r as [content|message]; [reflexivity|].
  destruct (throttled message); [|reflexivity].
  unfold bind. destruct (sleep _ s2) as [[] s3]. reflexivity.
Qed.

(** One attempt of the classifier, up to the reply. *)
Lemma ask_request (text : string) (s : State) :
  let s1 := snd (pace_groq s) in
  let s1' := set_last_groq (clock s1) s1 in
  let s2 := snd (groq_invoke W (PROMPT_TEMPLATE text) s1') in
  fst (groq_invoke W (PROMPT_TEMPLATE text) s1') = model_reply W s text 0
  /\ _DRIC_CACHE s2 = _DRIC_CACHE s
  /\ ask_frame s s2
  /\ calls s2 = calls s
  /\ List.length (groq_requests s2) = (List.length (groq_requests s) + 1)%nat
  /\ backoffs (pauses s2) = backoffs (pauses s).
Proof.
  destruct (pace_groq_idle s) as (Ha & Hd & Hlf & Hlg & Hfr & Hgr & Hc & Hb).
  set (s1 := snd (pace_groq s)) in *. cbv zeta.
  set (s1' := set_last_groq (clock s1) s1).
  destruct (groq_invoke_state (PROMPT_TEMPLATE text) s1')
    as (Ha' & Hd' & Hlf' & Hlg' & Hfr' & Hgr' & Hc' & Hp').
  rewrite groq_invoke_reply. unfold model_reply, ask_frame.
  rewrite Ha', Hd', Hlf', Hfr', Hgr', Hc', Hp'.
  change (groq_requests s1') with (groq_requests s1).
  change (_ARTICLE_CACHE s1') with (_ARTICLE_CACHE s1).
  change (_DRIC_CACHE s1') with (_DRIC_CACHE s1).
  change (_LAST_FIRECRAWL_CALL s1') with (_LAST_FIRECRAWL_CALL s1).
  change (firecrawl_requests s1') with (firecrawl_requests s1).
  change (calls s1') with (calls s1).
  change (pauses s1') with (pauses s1).
  rewrite length_app, Hgr, Nat.add_0_r. repeat split; assumption.
Qed.

(** [j] throttled replies of the model in a row. *)
Lemma ask_attempts_throttled (text digest : string) (j : nat) :
  forall (a : Z) (rest : list Z) (s : State),
    (forall k, (k < j)%nat -> throttles (model_reply W s text k)) ->
    exists s',
      ask_attempts W text digest (Scraper.range a (a + Z.of_nat j) ++ rest) s
      = ask_attempts W text digest rest s'
      /\ _DRIC_CACHE s' = _DRIC_CACHE s
      /\ ask_frame s s'
      /\ calls s' = calls s
      /\ List.length (groq_requests s')
         = (List.length (groq_requests s) + j)%nat
      /\ backoffs (pauses s')
         = backoffs (pauses s)
           ++ map (fun x => 1500 * x) (Scraper.range a (a + Z.of_nat j)).
Proof.
  induction j as [|j IH]; intros a rest s Hk.
  - exists s. rewrite range_empty by lia. simpl. rewrite app_nil_r.
    repeat split. lia.
  - rewrite range_snoc_step.
    change ((a :: ?l) ++ rest) with (a :: l ++ rest).
    rewrite ask_attempts_cons. cbv zeta.
    destruct (ask_request text s) as (Hr & Hd & (Ha & Hlf & Hfr) & Hc & Hn & Hb).
    set (s2 := snd (groq_invoke W (PROMPT_TEMPLATE text)
                      (set_last_groq (clock (snd (pace_groq s))) (snd (pace_groq s))))) in *.
    destruct (Hk O ltac:(lia)) as (message & Hr0 & Hm%throttled_spec).
    rewrite Hr, Hr0, Hm.
    set (s3 := snd (sleep (Backoff (1500 * a)) s2)).
    destruct (IH (a + 1) rest s3) as (s' & E & Hd' & (Ha' & Hlf' & Hfr') & Hc' & Hn' & Hb').
    { intros k Hlt. unfold model_reply.
      change (groq_requests s3) with (groq_requests s2).
      rewrite Hn. replace (_ + 1 + k)%nat
        with (List.length (groq_requests s) + S k)%nat by lia.
      apply Hk. lia. }
    exists s'. split; [exact E|].
    change (_ARTICLE_CACHE s3) with (_ARTICLE_CACHE s2) in Ha'.
    change (_DRIC_CACHE s3) with (_DRIC_CACHE s2) in Hd'.
    change (_LAST_FIRECRAWL_CALL s3) with (_LAST_FIRECRAWL_CALL s2) in Hlf'.
    change (firecrawl_requests s3) with (firecrawl_requests s2) in Hfr'.
    change (calls s3) with (calls s2) in Hc'.
    change (groq_requests s3) with (groq_requests s2) in Hn'.
    change (pauses s3) with (pauses s2 ++ [Backoff (1500 * a)]) in Hb'.
    rewrite backoffs_app, Hb in Hb'. cbn [backoffs flat_map] in Hb'.
    unfold ask_frame.
    rewrite Ha', Ha, Hd', Hd, Hlf', Hlf, Hfr', Hfr, Hc', Hc, Hn', Hn, Hb'.
    repeat split; [lia|]. rewrite <- app_assoc. reflexivity.
Qed.

(** Whatever the service replies, the loop of the fetcher changes the
    article cache at most at [url], by the text it returns. *)
Lemma crawl_attempts_any (url : string) (attempts : list Z) :
  forall s : State,
    let r := crawl_attempts W url (build_opts url) attempts s in
    crawl_frame s (snd r)
    /\ calls (snd r) = calls s
    /\ match fst r with
       | Some text => _ARTICLE_CACHE (snd r) = <[url := text]> (_ARTICLE_CACHE s)
       | None => _ARTICLE_CACHE (snd r) = _ARTICLE_CACHE s
       end.
Proof.
  induction attempts as [|a rest IH]; intros s; cbv zeta.
  - simpl. repeat split.
  - rewrite crawl_attempts_cons. cbv zeta.
    destruct (crawl_request url s) as (Hr & Ha & (Hd & Hlf & Hlg & Hgr) & Hc & Hn & Hb).
    set (s2 := snd (firecrawl_scrape W url (build_opts url) (snd (pace_firecrawl s)))) in *.
    rewrite Hr. destruct (scrape_reply W s url 0) as [result|message].
    + cbn [fst snd]. unfold crawl_frame. cbn. rewrite Ha. repeat split; assumption.
    + destruct (throttled message).
      * set (s3 := snd (sleep (Backoff (_FIRECRAWL_MIN_INTERVAL * a)) s2)).
        destruct (IH s3) as ((Hd' & Hlf' & Hlg' & Hgr') & Hc' & Hcache).
        change (_ARTICLE_CACHE s3) with (_ARTICLE_CACHE s2) in Hcache.
        change (_DRIC_CACHE s3) with (_DRIC_CACHE s2) in Hd'.
        change (_LAST_FIRECRAWL_CALL s3) with (_LAST_FIRECRAWL_CALL s2) in Hlf'.
        change (_LAST_GROQ_CALL s3) with (_LAST_GROQ_CALL s2) in Hlg'.
        change (groq_requests s3) with (groq_requests s2) in Hgr'.
        change (calls s3) with (calls s2) in Hc'.
        rewrite Ha in Hcache. unfold crawl_frame.
        rewrite Hd', Hd, Hlf', Hlf, Hlg', Hlg, Hgr', Hgr, Hc', Hc.
        repeat split. exact Hcache.
      * cbn [fst snd]. unfold crawl_frame. repeat split; assumption.
Qed.

Lemma classify_label (content : option string) :
  classify content = "YES" \/ classify content = "NO".
Proof. unfold classify. destruct (startswith _ _); auto. Qed.

(** Whatever the model replies, the loop of the classifier changes the
    label cache at most at [digest], by the label it returns, which is
    "YES" or "NO". *)
Lemma ask_attempts_any (text digest : string) (attempts : list Z) :
  forall s : State,
    let r := ask_attempts W text digest attempts s in
    ask_frame s (snd r)
    /\ calls (snd r) = calls s
    /\ match fst r with
       | Some answer =>
           (answer = "YES" \/ answer = "NO")
           /\ _DRIC_CACHE (snd r) = <[digest := answer]> (_DRIC_CACHE s)
       | None => _DRIC_CACHE (snd r) = _DRIC_CACHE s
       end.
Proof.
  induction attempts as [|a rest IH]; intros s; cbv zeta.
  - simpl. repeat split.
  - rewrite ask_attempts_cons. cbv zeta.
    destruct (ask_request text s) as (Hr & Hd & (Ha & Hlf & Hfr) & Hc & Hn & Hb).
    set (s2 := snd (groq_invoke W (PROMPT_TEMPLATE text)
                      (set_last_groq (clock (snd (pace_groq s))) (snd (pace_groq s))))) in *.
    rewrite Hr. destruct (model_reply W s text 0) as [content|message].
    + cbn [fst snd]. unfold ask_frame. cbn. rewrite Hd.
      repeat split; try assumption. apply classify_label.
    + destruct (throttled message).
      * set (s3 := snd (sleep (Backoff (1500 * a)) s2)).
        destruct (IH s3) as ((Ha' & Hlf' & Hfr') & Hc' & Hcache).
        change (_ARTICLE_CACHE s3) with (_ARTICLE_CACHE s2) in Ha'.
        change (_DRIC_CACHE s3) with (_DRIC_CACHE s2) in Hcache.
        change (_LAST_FIRECRAWL_CALL s3) with (_LAST_FIRECRAWL_CALL s2) in Hlf'.
        change (firecrawl_requests s3) with (firecrawl_requests s2) in Hfr'.
        change (calls s3) with (calls s2) in Hc'.
        rewrite Hd in Hcache. unfold ask_frame.
        rewrite Ha', Ha, Hlf', Hlf, Hfr', Hfr, Hc', Hc.
        repeat split. exact Hcache.
      * cbn [fst snd]. unfold ask_frame. repeat split; assumption.
Qed.

Lemma crawl_article_hit (url text : string) (max_retries : Z) (s : State) :
  _ARTICLE_CACHE s !! url = Some text ->
  _crawl_article W url max_retries s = (text, log_call (Crawl url) s).
Proof.
  intros H. unfold _crawl_article, bind, modify, get.
  change (_ARTICLE_CACHE (log_call (Crawl url) s)) with (_ARTICLE_CACHE s).
  now rewrite H.
Qed.

Lemma crawl_article_miss (url : string) (max_retries : Z) (s : State) :
  _ARTICLE_CACHE s !! url = None ->
  _crawl_article W url max_retries s
  = let r := crawl_attempts W url (build_opts url)
               (Scraper.range 1 (max_retries + 1)) (log_call (Crawl url) s) in
    match fst r with
    | Some text => (text, snd r)
    | None => (EmptyString, set_article url EmptyString (snd r))
    end.
Proof.
  intros H. unfold _crawl_article, bind, modify, get.
  change (_ARTICLE_CACHE (log_call (Crawl url) s)) with (_ARTICLE_CACHE s).
  rewrite H. cbv zeta.
  destruct (crawl_attempts W url (build_opts url) _ _) as [[text|] s'];
    reflexivity.
Qed.

Lemma ask_dric_empty (max_retries : Z) (s : State) :
  _ask_dric W sha256_hexdigest EmptyString max_retries s
  = ("NO", log_call (Ask EmptyString) s).
Proof. reflexivity. Qed.

Lemma ask_dric_hit (text answer : string) (max_retries : Z) (s : State) :
  truthy text = true ->
  _DRIC_CACHE s !! sha256_hexdigest text = Some answer ->
  _ask_dric W sha256_hexdigest text max_retries s
  = (answer, log_call (Ask text) s).
Proof.
  intros Ht H. unfold _ask_dric, bind, modify, get. rewrite Ht. cbn [negb].
  change (_DRIC_CACHE (log_call (Ask text) s)) with (_DRIC_CACHE s).
  now rewrite H.
Qed.

Lemma ask_dric_miss (text : string) (max_retries : Z) (s : State) :
  truthy text = true ->
  _DRIC_CACHE s !! sha256_hexdigest text = None ->
  _ask_dric W sha256_hexdigest text max_retries s
  = let r := ask_attempts W text (sha256_hexdigest text)
               (Scraper.range 1 (max_retries + 1)) (log_call (Ask text) s) in
    match fst r with
    | Some answer => (answer, snd r)
    | None => ("NO", set_dric (sha256_hexdigest text) "NO" (snd r))
    end.
Proof.
  intros Ht H. unfold _ask_dric, bind, modify, get. rewrite Ht. cbn [negb].
  change (_DRIC_CACHE (log_call (Ask text) s)) with (_DRIC_CACHE s).
  rewrite H. cbv zeta.
  destruct (ask_attempts W text _ _ _) as [[answer|] s']; reflexivity.
Qed.

(** The fetcher after [j] throttled replies to its first [j] attempts. *)
Lemma crawl_prefix (url : string) (max_retries : Z) (j : nat) (s : State) :
  Z.of_nat j <= max_retries ->
  (forall k, (k < j)%nat -> throttles (scrape_reply W s url k)) ->
  exists s_j,
    crawl_attempts W url (build_opts url) (Scraper.range 1 (max_retries + 1))
      (log_call (Crawl url) s)
    = crawl_attempts W url (build_opts url)
        (Scraper.range (1 + Z.of_nat j) (max_retries + 1)) s_j
    /\ _ARTICLE_CACHE s_j = _ARTICLE_CACHE s
    /\ crawl_frame s s_j
    /\ calls s_j = calls s ++ [Crawl url]
    /\ List.length (firecrawl_requests s_j)
       = (List.length (firecrawl_requests s) + j)%nat
    /\ backoffs (pauses s_j)
       = backoffs (pauses s) ++ linear_backoffs _FIRECRAWL_MIN_INTERVAL j.
Proof.
  intros Hj Hk.
  rewrite (range_split 1 (1 + Z.of_nat j) (max_retries + 1)) by lia.
  destruct (crawl_attempts_throttled url j 1
              (Scraper.range (1 + Z.of_nat j) (max_retries + 1))
              (log_call (Crawl url) s) Hk)
    as (s_j & E & Ha & Hf & Hc & Hn & Hb).
  exists s_j. split; [exact E|]. repeat split; try assumption; apply Hf.
Qed.

Lemma crawl_exhausted (url : string) (n : nat) (s : State) :
  _ARTICLE_CACHE s !! url = None ->
  (forall k, (k < n)%nat -> throttles (scrape_reply W s url k)) ->
  let r := _crawl_article W url (Z.of_nat n) s in
  fst r = EmptyString
  /\ crawl_effect s (snd r) url EmptyString n
       (linear_backoffs _FIRECRAWL_MIN_INTERVAL n).
Proof.
  intros Hmiss Hk. cbv zeta. rewrite (crawl_article_miss _ _ _ Hmiss). cbv zeta.
  destruct (crawl_prefix url (Z.of_nat n) n s ltac:(lia) Hk)
    as (s_j & E & Ha & (Hd & Hlf & Hlg & Hgr) & Hc & Hn & Hb).
  rewrite E, range_empty by lia. cbn [crawl_attempts ret fst snd].
  split; [reflexivity|]. unfold crawl_effect, crawl_frame. cbn.
  rewrite Ha. repeat split; assumption.
Qed.

Lemma crawl_after_prefix (url : string) (max_retries : Z) (j : nat)
    (s s_j : State) :
  Z.of_nat j < max_retries ->
  List.length (firecrawl_requests s_j)
  = (List.length (firecrawl_requests s) + j)%nat ->
  crawl_attempts W url (build_opts url)
    (Scraper.range (1 + Z.of_nat j) (max_retries + 1)) s_j
  = let s2 := snd (firecrawl_scrape W url (build_opts url) (snd (pace_firecrawl s_j))) in
    match scrape_reply W s url j with
    | Ok result => (Some (text_of result), set_article url (text_of result) s2)
    | Raises message =>
        if throttled message
        then crawl_attempts W url (build_opts url)
               (Scraper.range (1 + Z.of_nat j + 1) (max_retries + 1))
               (snd (sleep (Backoff (_FIRECRAWL_MIN_INTERVAL * (1 + Z.of_nat j))) s2))
        else (None, s2)
    end.
Proof.
  intros Hj Hn. rewrite range_cons by lia. rewrite crawl_attempts_cons. cbv zeta.
  destruct (crawl_request url s_j) as (Hr & _). rewrite Hr.
  unfold scrape_reply. now rewrite Hn, Nat.add_0_r.
Qed.

Lemma crawl_aborted (url : string) (max_retries : Z) (j : nat) (s : State) :
  _ARTICLE_CACHE s !! url = None ->
  Z.of_nat j < max_retries ->
  (forall k, (k < j)%nat -> throttles (scrape_reply W s url k)) ->
  fails_otherwise (scrape_reply W s url j) ->
  let r := _crawl_article W url max_retries s in
  fst r = EmptyString
  /\ crawl_effect s (snd r) url EmptyString (S j)
       (linear_backoffs _FIRECRAWL_MIN_INTERVAL j).
Proof.
  intros Hmiss Hj Hk (message & Hr & Hm%not_throttled). cbv zeta.
  rewrite (crawl_article_miss _ _ _ Hmiss). cbv zeta.
  destruct (crawl_prefix url max_retries j s ltac:(lia) Hk)
    as (s_j & E & Ha & (Hd & Hlf & Hlg & Hgr) & Hc & Hn & Hb).
  rewrite E, (crawl_after_prefix url max_retries j s s_j Hj Hn). cbv zeta.
  rewrite Hr, Hm. cbn [fst snd].
  destruct (crawl_request url s_j) as (_ & Ha2 & (Hd2 & Hlf2 & Hlg2 & Hgr2) & Hc2 & Hn2 & Hb2).
  set (s2 := snd (firecrawl_scrape W url (build_opts url) (snd (pace_firecrawl s_j)))) in *.
  split; [reflexivity|]. unfold crawl_effect, crawl_frame. fields.
  rewrite Ha2, Ha, Hd2, Hd, Hlf2, Hlf, Hlg2, Hlg, Hgr2, Hgr, Hc2, Hc, Hn2, Hn, Hb2, Hb.
  repeat split. lia.
Qed.

Lemma crawl_succeeded (url : string) (max_retries : Z) (j : nat) (s : State)
    (result : scrape_result) :
  _ARTICLE_CACHE s !! url = None ->
  Z.of_nat j < max_retries ->
  (forall k, (k < j)%nat -> throttles (scrape_reply W s url k)) ->
  scrape_reply W s url j = Ok result ->
  let r := _crawl_article W url max_retries s in
  fst r = text_of result
  /\ crawl_effect s (snd r) url (text_of result) (S j)
       (linear_backoffs _FIRECRAWL_MIN_INTERVAL j).
Proof.
  intros Hmiss Hj Hk Hr. cbv zeta.
  rewrite (crawl_article_miss _ _ _ Hmiss). cbv zeta.
  destruct (crawl_prefix url max_retries j s ltac:(lia) Hk)
    as (s_j & E & Ha & (Hd & Hlf & Hlg & Hgr) & Hc & Hn & Hb).
  rewrite E, (crawl_after_prefix url max_retries j s s_j Hj Hn). cbv zeta.
  rewrite Hr. cbn [fst snd].
  destruct (crawl_request url s_j) as (_ & Ha2 & (Hd2 & Hlf2 & Hlg2 & Hgr2) & Hc2 & Hn2 & Hb2).
  set (s2 := snd (firecrawl_scrape W url (build_opts url) (snd (pace_firecrawl s_j)))) in *.
  split; [reflexivity|]. unfold crawl_effect, crawl_frame. fields.
  rewrite Ha2, Ha, Hd2, Hd, Hlf2, Hlf, Hlg2, Hlg, Hgr2, Hgr, Hc2, Hc, Hn2, Hn, Hb2, Hb.
  repeat split. lia.
Qed.

(** The classifier after [j] throttled replies to its first [j] attempts. *)
Lemma ask_prefix (text : string) (max_retries : Z) (j : nat) (s : State) :
  Z.of_nat j <= max_retries ->
  (forall k, (k < j)%nat -> throttles (model_reply W s text k)) ->
  exists s_j,
    ask_attempts W text (sha256_hexdigest text)
      (Scraper.range 1 (max_retries + 1)) (log_call (Ask text) s)
    = ask_attempts W text (sha256_hexdigest text)
        (Scraper.range (1 + Z.of_nat j) (max_retries + 1)) s_j
    /\ _DRIC_CACHE s_j = _DRIC_CACHE s
    /\ ask_frame s s_j
    /\ calls s_j = calls s ++ [Ask text]
    /\ List.length (groq_requests s_j)
       = (List.length (groq_requests s) + j)%nat
    /\ backoffs (pauses s_j) = backoffs (pauses s) ++ linear_backoffs 1500 j.
Proof.
  intros Hj Hk.
  rewrite (range_split 1 (1 + Z.of_nat j) (max_retries + 1)) by lia.
  destruct (ask_attempts_throttled text (sha256_hexdigest text) j 1
              (Scraper.range (1 + Z.of_nat j) (max_retries + 1))
              (log_call (Ask text) s) Hk)
    as (s_j & E & Hd & Hf & Hc & Hn & Hb).
  exists s_j. split; [exact E|]. repeat split; try assumption; apply Hf.
Qed.

Lemma ask_exhausted (text : string) (n : nat) (s : State) :
  truthy text = true ->
  _DRIC_CACHE s !! sha256_hexdigest text = None ->
  (forall k, (k < n)%nat -> throttles (model_reply W s text k)) ->
  let r := _ask_dric W sha256_hexdigest text (Z.of_nat n) s in
  fst r = "NO"
  /\ ask_effect s (snd r) text (sha256_hexdigest text) "NO" n
       (linear_backoffs 1500 n).
Proof.
  intros Ht Hmiss Hk. cbv zeta. rewrite (ask_dric_miss _ _ _ Ht Hmiss). cbv zeta.
  destruct (ask_prefix text (Z.of_nat n) n s ltac:(lia) Hk)
    as (s_j & E & Hd & (Ha & Hlf & Hfr) & Hc & Hn & Hb).
  rewrite E, range_empty by lia. cbn [ask_attempts ret fst snd].
  split; [reflexivity|]. unfold ask_effect, ask_frame. fields.
  rewrite Hd. repeat split; assumption.
Qed.

Lemma ask_after_prefix (text digest : string) (max_retries : Z) (j : nat)
    (s s_j : State) :
  Z.of_nat j < max_retries ->
  List.length (groq_requests s_j) = (List.length (groq_requests s) + j)%nat ->
  ask_attempts W text digest
    (Scraper.range (1 + Z.of_nat j) (max_retries + 1)) s_j
  = let s1 := snd (pace_groq s_j) in
    let s2 := snd (groq_invoke W (PROMPT_TEMPLATE text)
                     (set_last_groq (clock s1) s1)) in
    match model_reply W s text j with
    | Ok content =>
        (Some (classify content), set_dric digest (classify content) s2)
    | Raises message =>
        if throttled message
        then ask_attempts W text digest
               (Scraper.range (1 + Z.of_nat j + 1) (max_retries + 1))
               (snd (sleep (Backoff (1500 * (1 + Z.of_nat j))) s2))
        else (None, s2)
    end.
Proof.
  intros Hj Hn. rewrite range_cons by lia. rewrite ask_attempts_cons. cbv zeta.
  destruct (ask_request text s_j) as (Hr & _). rewrite Hr.
  unfold model_reply. now rewrite Hn, Nat.add_0_r.
Qed.

Lemma ask_aborted (text : string) (max_retries : Z) (j : nat) (s : State) :
  truthy text = true ->
  _DRIC_CACHE s !! sha256_hexdigest text = None ->
  Z.of_nat j < max_retries ->
  (forall k, (k < j)%nat -> throttles (model_reply W s text k)) ->
  fails_otherwise (model_reply W s text j) ->
  let r := _ask_dric W sha256_hexdigest text max_retries s in
  fst r = "NO"
  /\ ask_effect s (snd r) text (sha256_hexdigest text) "NO" (S j)
       (linear_backoffs 1500 j).
Proof.
  intros Ht Hmiss Hj Hk (message & Hr & Hm%not_throttled). cbv zeta.
  rewrite (ask_dric_miss _ _ _ Ht Hmiss). cbv zeta.
  destruct (ask_prefix text max_retries j s ltac:(lia) Hk)
    as (s_j & E & Hd & (Ha & Hlf & Hfr) & Hc & Hn & Hb).
  rewrite E, (ask_after_prefix text _ max_retries j s s_j Hj Hn). cbv zeta.
  rewrite Hr, Hm. cbn [fst snd].
  destruct (ask_request text s_j) as (_ & Hd2 & (Ha2 & Hlf2 & Hfr2) & Hc2 & Hn2 & Hb2).
  set (s2 := snd (groq_invoke W (PROMPT_TEMPLATE text)
                    (set_last_groq (clock (snd (pace_groq s_j))) (snd (pace_groq s_j))))) in *.
  split; [reflexivity|]. unfold ask_effect, ask_frame. fields.
  rewrite Ha2, Ha, Hd2, Hd, Hlf2, Hlf, Hfr2, Hfr, Hc2, Hc, Hn2, Hn, Hb2, Hb.
  repeat split. lia.
Qed.

Lemma ask_answered (text : string) (max_retries : Z) (j : nat) (s : State)
    (content : option string) :
  truthy text = true ->
  _DRIC_CACHE s !! sha256_hexdigest text = None ->
  Z.of_nat j < max_retries ->
  (forall k, (k < j)%nat -> throttles (model_reply W s text k)) ->
  model_reply W s text j = Ok content ->
  let r := _ask_dric W sha256_hexdigest text max_retries s in
  fst r = classify content
  /\ ask_effect s (snd r) text (sha256_hexdigest text) (classify content) (S j)
       (linear_backoffs 1500 j).
Proof.
  intros Ht Hmiss Hj Hk Hr. cbv zeta.
  rewrite (ask_dric_miss _ _ _ Ht Hmiss). cbv zeta.
  destruct (ask_prefix text max_retries j s ltac:(lia) Hk)
    as (s_j & E & Hd & (Ha & Hlf & Hfr) & Hc & Hn & Hb).
  rewrite E, (ask_after_prefix text _ max_retries j s s_j Hj Hn). cbv zeta.
  rewrite Hr. cbn [fst snd].
  destruct (ask_request text s_j) as (_ & Hd2 & (Ha2 & Hlf2 & Hfr2) & Hc2 & Hn2 & Hb2).
  set (s2 := snd (groq_invoke W (PROMPT_TEMPLATE text)
                    (set_last_groq (clock (snd (pace_groq s_j))) (snd (pace_groq s_j))))) in *.
  split; [reflexivity|]. unfold ask_effect, ask_frame. fields.
  rewrite Ha2, Ha, Hd2, Hd, Hlf2, Hlf, Hfr2, Hfr, Hc2, Hc, Hn2, Hn, Hb2, Hb.
  repeat split. lia.
Qed.

(** Whatever the service replies, a call of the fetcher leaves the
    classifier's globals alone, records itself once, and keeps every
    entry the article cache already had. *)
Lemma crawl_article_any (url : string) (max_retries : Z) (s : State) :
  let r := _crawl_article W url max_retries s in
  crawl_frame s (snd r)
  /\ calls (snd r) = calls s ++ [Crawl url]
  /\ (forall u v, _ARTICLE_CACHE s !! u = Some v ->
                  _ARTICLE_CACHE (snd r) !! u = Some v).
Proof.
  cbv zeta. destruct (_ARTICLE_CACHE s !! url) as [text|] eqn:Hc.
  - rewrite (crawl_article_hit _ _ _ _ Hc). repeat split. intros u v H. exact H.
  - rewrite (crawl_article_miss _ _ _ Hc). cbv zeta.
    destruct (crawl_attempts_any url (Scraper.range 1 (max_retries + 1))
                (log_call (Crawl url) s)) as (Hf & Hcalls & Hcache).
    destruct (crawl_attempts W url (build_opts url) _ _) as [[text|] s'];
      cbn [fst snd] in *; unfold crawl_frame in *; fields; fields in Hf;
      fields in Hcalls; fields in Hcache.
    + repeat split; try apply Hf; [exact Hcalls|].
      intros u v H. rewrite Hcache. rewrite lookup_insert_ne; [exact H|].
      intros ->. congruence.
    + repeat split; try apply Hf; [exact Hcalls|].
      intros u v H. rewrite Hcache. rewrite lookup_insert_ne; [exact H|].
      intros ->. congruence.
Qed.

Lemma labels_only_insert (s s' : State) (digest answer : string) :
  labels_only s ->
  answer = "YES" \/ answer = "NO" ->
  _DRIC_CACHE s' = <[digest := answer]> (_DRIC_CACHE s) ->
  labels_only s'.
Proof.
  intros Hs Ha E d a. rewrite E.
  destruct (decide (digest = d)) as [->|Hne].
  - rewrite lookup_insert_eq. now intros [= <-].
  - rewrite lookup_insert_ne by exact Hne. apply Hs.
Qed.

(** Whatever the model replies, a call of the classifier leaves the
    fetcher's globals alone, records itself once, keeps every label the
    cache already had, and returns a label when the cache holds labels
    only, which it then still does. *)
Lemma ask_dric_any (text : string) (max_retries : Z) (s : State) :
  let r := _ask_dric W sha256_hexdigest text max_retries s in
  ask_frame s (snd r)
  /\ calls (snd r) = calls s ++ [Ask text]
  /\ (forall d a, _DRIC_CACHE s !! d = Some a -> _DRIC_CACHE (snd r) !! d = Some a)
  /\ (labels_only s -> (fst r = "YES" \/ fst r = "NO") /\ labels_only (snd r)).
Proof.
  cbv zeta. destruct (truthy text) eqn:Ht.
  2:{ destruct text; [|discriminate]. rewrite ask_dric_empty.
      refine (conj _ (conj _ (conj _ _))); [repeat split|reflexivity|auto|].
      intros Hl. split; [now right|exact Hl]. }
  destruct (_DRIC_CACHE s !! sha256_hexdigest text) as [answer|] eqn:Hc.
  - rewrite (ask_dric_hit _ _ _ _ Ht Hc).
    refine (conj _ (conj _ (conj _ _))); [repeat split|reflexivity|auto|].
    cbn [fst]. intros Hl. split; [exact (Hl _ _ Hc)|exact Hl].
  - rewrite (ask_dric_miss _ _ _ Ht Hc). cbv zeta.
    destruct (ask_attempts_any text (sha256_hexdigest text)
                (Scraper.range 1 (max_retries + 1)) (log_call (Ask text) s))
      as (Hf & Hcalls & Hcache).
    destruct (ask_attempts W text (sha256_hexdigest text) _ _) as [[answer|] s'];
      cbn [fst snd] in *; unfold ask_frame in *; fields; fields in Hf;
      fields in Hcalls; fields in Hcache.
    + destruct Hcache as [Hans Hcache].
      refine (conj _ (conj _ (conj _ _))); [exact Hf|exact Hcalls| |].
      * intros d a H. rewrite Hcache. rewrite lookup_insert_ne; [exact H|].
        intros E. rewrite <- E in H. congruence.
      * intros Hl. split; [exact Hans|]. eapply labels_only_insert; eauto.
    + refine (conj _ (conj _ (conj _ _))); [exact Hf|exact Hcalls| |].
      * intros d a H. rewrite Hcache. rewrite lookup_insert_ne; [exact H|].
        intros E. rewrite <- E in H. congruence.
      * intros Hl. split; [now right|].
        eapply (labels_only_insert s); [assumption|now right|].
        fields. now rewrite Hcache.
Qed.

Lemma process_row_unresolved (row : Publication) (s : State) :
  _extract_article_url W (scholar_link row) = None ->
  _process_row W sha256_hexdigest row s = (emit row "NF", s).
Proof. intros H. unfold _process_row. now rewrite H. Qed.

Lemma process_row_resolved (row : Publication) (article_url : string)
    (s : State) :
  _extract_article_url W (scholar_link row) = Some article_url ->
  truthy article_url = true ->
  _process_row W sha256_hexdigest row s
  = let r1 := _crawl_article W article_url 3 s in
    if truthy (fst r1)
    then let r2 := _ask_dric W sha256_hexdigest (fst r1) 4 (snd r1) in
         (emit row (fst r2), snd r2)
    else (emit row "NF", snd r1).
Proof.
  intros H Ht. unfold _process_row. rewrite H, Ht. cbn [negb]. unfold bind at 1.
  cbv zeta. destruct (_crawl_article W article_url 3 s) as [text s1].
  cbn [fst snd]. destruct (truthy text).
  - unfold bind. destruct (_ask_dric W sha256_hexdigest text 4 s1). reflexivity.
  - reflexivity.
Qed.

(** No operation of the process drops or changes a cached entry. *)
Lemma run_op_keeps (o : op) (s : State) :
  (forall u v, _ARTICLE_CACHE s !! u = Some v ->
               _ARTICLE_CACHE (run_op W sha256_hexdigest o s) !! u = Some v)
  /\ (forall d a, _DRIC_CACHE s !! d = Some a ->
                  _DRIC_CACHE (run_op W sha256_hexdigest o s) !! d = Some a).
Proof.
  assert (forall url n s0,
            (forall u v, _ARTICLE_CACHE s0 !! u = Some v ->
               _ARTICLE_CACHE (snd (_crawl_article W url n s0)) !! u = Some v)
            /\ (forall d a, _DRIC_CACHE s0 !! d = Some a ->
               _DRIC_CACHE (snd (_crawl_article W url n s0)) !! d = Some a)) as Hcrawl.
  { intros url n s0. destruct (crawl_article_any url n s0) as ((Hd & _) & _ & Hk).
    split; [exact Hk|]. intros d a H. now rewrite Hd. }
  assert (forall text n s0,
            (forall u v, _ARTICLE_CACHE s0 !! u = Some v ->
               _ARTICLE_CACHE (snd (_ask_dric W sha256_hexdigest text n s0)) !! u = Some v)
            /\ (forall d a, _DRIC_CACHE s0 !! d = Some a ->
               _DRIC_CACHE (snd (_ask_dric W sha256_hexdigest text n s0)) !! d = Some a)) as Hask.
  { intros text n s0. destruct (ask_dric_any text n s0) as ((Ha & _) & _ & Hk & _).
    split; [|exact Hk]. intros u v H. now rewrite Ha. }
  destruct o as [url n|text n|row]; cbn [run_op].
  - apply Hcrawl.
  - apply Hask.
  - destruct (_extract_article_url W (scholar_link row)) as [u|] eqn:Hr.
    2:{ rewrite (process_row_unresolved _ _ Hr). split; auto. }
    destruct (truthy u) eqn:Hu.
    2:{ unfold _process_row. rewrite Hr, Hu. split; auto. }
    rewrite (process_row_resolved _ _ _ Hr Hu). cbv zeta.
    destruct (Hcrawl u 3 s) as [H1 H2].
    destruct (truthy (fst (_crawl_article W u 3 s))); cbn [snd]; [|split; auto].
    destruct (Hask (fst (_crawl_article W u 3 s)) 4 (snd (_crawl_article W u 3 s)))
      as [H3 H4].
    split; auto.
Qed.

Lemma run_ops_keeps (ops : list op) :
  forall s : State,
    (forall u v, _ARTICLE_CACHE s !! u = Some v ->
                 _ARTICLE_CACHE (run_ops W sha256_hexdigest ops s) !! u = Some v)
    /\ (forall d a, _DRIC_CACHE s !! d = Some a ->
                    _DRIC_CACHE (run_ops W sha256_hexdigest ops s) !! d = Some a).
Proof.
  induction ops as [|o ops IH]; intros s; [split; auto|].
  destruct (run_op_keeps o s) as [H1 H2].
  destruct (IH (run_op W sha256_hexdigest o s)) as [H3 H4].
  split; cbn [run_ops fold_left]; auto.
Qed.

Lemma labels_only_same (s s' : State) :
  _DRIC_CACHE s' = _DRIC_CACHE s -> labels_only s -> labels_only s'.
Proof. intros E H d a. rewrite E. apply H. Qed.

(** No operation of the process puts anything but a label in the label
    cache. *)
Lemma run_op_labels (o : op) (s : State) :
  labels_only s -> labels_only (run_op W sha256_hexdigest o s).
Proof.
  intros Hl. destruct o as [url n|text n|row]; cbn [run_op].
  - apply (labels_only_same s); [|exact Hl]. apply (crawl_article_any url n s).
  - now apply (ask_dric_any text n s).
  - destruct (_extract_article_url W (scholar_link row)) as [u|] eqn:Hr.
    2:{ now rewrite (process_row_unresolved _ _ Hr). }
    destruct (truthy u) eqn:Hu.
    2:{ unfold _process_row. now rewrite Hr, Hu. }
    rewrite (process_row_resolved _ _ _ Hr Hu). cbv zeta.
    assert (labels_only (snd (_crawl_article W u 3 s))) as Hl1.
    { apply (labels_only_same s); [|exact Hl]. apply (crawl_article_any u 3 s). }
    destruct (truthy (fst (_crawl_article W u 3 s))); cbn [snd]; [|exact Hl1].
    now apply (ask_dric_any _ 4 _).
Qed.

Lemma run_ops_labels (ops : list op) :
  forall s : State,
    labels_only s -> labels_only (run_ops W sha256_hexdigest ops s).
Proof.
  induction ops as [|o ops IH]; intros s Hl; [exact Hl|].
  cbn [run_ops fold_left]. apply IH. now apply run_op_labels.
Qed.

End DricFacts.

Section RateLimit.
Import Dric Spec Worlds.

(** The fetcher never writes its last-call timestamp. *)
Lemma crawl_keeps_last_call (W : World) (url : string) (max_retries : Z)
    (s : State) :
  _LAST_FIRECRAWL_CALL (snd (_crawl_article W url max_retries s))
  = _LAST_FIRECRAWL_CALL s.
Proof. apply (crawl_article_any W url max_retries s). Qed.

(** C3 at the failing input.  Two articles are fetched one after the
    other from a fresh process; the service answers each request after
    300 ms.  The second request leaves at 300 ms, with no sleep before
    it, and the last-call timestamp of the fetcher is still unset: no
    call of the fetcher, in any world, ever changes it. *)
Theorem firecrawl_requests_unspaced :
  (let s1 := snd (_crawl_article always_ok "https://a.example/1" 3 at_import) in
   let s2 := snd (_crawl_article always_ok "https://b.example/2" 3 s1) in
   map (fun r => fst (fst r)) (firecrawl_requests s2) = [0; 300]
   /\ pauses s2 = []
   /\ _LAST_FIRECRAWL_CALL s2 = None)
  /\ (forall (W : World) url max_retries s,
        _LAST_FIRECRAWL_CALL (snd (_crawl_article W url max_retries s))
        = _LAST_FIRECRAWL_CALL s).
Proof.
  split; [vm_compute; repeat split|].
  intros W url max_retries s. apply crawl_keeps_last_call.
Qed.

(** The classifier does write its own, at the clock reading of the
    request. *)
Lemma ask_records_last_call :
  let s1 := snd (_ask_dric always_ok plain_digest "Funded by DRIC." 4 at_import) in
  _LAST_GROQ_CALL s1 = Some 0 /\ groq_requests s1
  = [(0, PROMPT_TEMPLATE "Funded by DRIC.")].
Proof. vm_compute. repeat split. Qed.

End RateLimit.

Section RetryPolicy.
Import Text Dric Spec Worlds.

(** C4.  Both wrappers, on a cache miss: (1) when every attempt meets a
    throttling error (a message holding "429" or, in any case,
    "rate limit"), all [max_retries] attempts are made, each followed
    by a backoff of attempt times the base (2000 ms for the fetcher,
    1500 ms for the classifier; 3 and 4 attempts as the row pipeline
    calls them), and the failure value ("" or "NO") is cached and
    returned; (2) on any other error, after any number of throttled
    attempts, no further request is made and the failure value is
    cached and returned; (3) a reply after throttled attempts is
    returned after the same backoffs. *)
Theorem retry_policy (W : World) (sha256_hexdigest : string -> string) :
  linear_backoffs _FIRECRAWL_MIN_INTERVAL 3 = [2000; 4000; 6000]
  /\ linear_backoffs 1500 4 = [1500; 3000; 4500; 6000]
  /\ (forall url s,
        _ARTICLE_CACHE s !! url = None ->
        (forall n : nat,
            (forall k, (k < n)%nat -> throttles (scrape_reply W s url k)) ->
            let r := _crawl_article W url (Z.of_nat n) s in
            fst r = EmptyString
            /\ crawl_effect s (snd r) url EmptyString n
                 (linear_backoffs _FIRECRAWL_MIN_INTERVAL n))
        /\ (forall (max_retries : Z) (j : nat),
              Z.of_nat j < max_retries ->
              (forall k, (k < j)%nat -> throttles (scrape_reply W s url k)) ->
              fails_otherwise (scrape_reply W s url j) ->
              let r := _crawl_article W url max_retries s in
              fst r = EmptyString
              /\ crawl_effect s (snd r) url EmptyString (S j)
                   (linear_backoffs _FIRECRAWL_MIN_INTERVAL j))
        /\ (forall (max_retries : Z) (j : nat) result,
              Z.of_nat j < max_retries ->
              (forall k, (k < j)%nat -> throttles (scrape_reply W s url k)) ->
              scrape_reply W s url j = Ok result ->
              let r := _crawl_article W url max_retries s in
              fst r = text_of result
              /\ crawl_effect s (snd r) url (text_of result) (S j)
                   (linear_backoffs _FIRECRAWL_MIN_INTERVAL j)))
  /\ (forall text s,
        truthy text = true ->
        _DRIC_CACHE s !! sha256_hexdigest text = None ->
        (forall n : nat,
            (forall k, (k < n)%nat -> throttles (model_reply W s text k)) ->
            let r := _ask_dric W sha256_hexdigest text (Z.of_nat n) s in
            fst r = "NO"
            /\ ask_effect s (snd r) text (sha256_hexdigest text) "NO" n
                 (linear_backoffs 1500 n))
        /\ (forall (max_retries : Z) (j : nat),
              Z.of_nat j < max_retries ->
              (forall k, (k < j)%nat -> throttles (model_reply W s text k)) ->
              fails_otherwise (model_reply W s text j) ->
              let r := _ask_dric W sha256_hexdigest text max_retries s in
              fst r = "NO"
              /\ ask_effect s (snd r) text (sha256_hexdigest text) "NO" (S j)
                   (linear_backoffs 1500 j))
        /\ (forall (max_retries : Z) (j : nat) content,
              Z.of_nat j < max_retries ->
              (forall k, (k < j)%nat -> throttles (model_reply W s text k)) ->
              model_reply W s text j = Ok content ->
              let r := _ask_dric W sha256_hexdigest text max_retries s in
              fst r = classify content
              /\ ask_effect s (snd r) text (sha256_hexdigest text)
                   (classify content) (S j) (linear_backoffs 1500 j))).
Proof.
  split; [reflexivity|]. split; [reflexivity|]. split.
  - intros url s Hmiss. split; [|split].
    + intros n Hk. now apply crawl_exhausted.
    + intros max_retries j Hj Hk Hf. now apply crawl_aborted.
    + intros max_retries j result Hj Hk Hr. now apply crawl_succeeded.
  - intros text s Ht Hmiss. split; [|split].
    + intros n Hk. now apply ask_exhausted.
    + intros max_retries j Hj Hk Hf. now apply ask_aborted.
    + intros max_retries j content Hj Hk Hr. now apply ask_answered.
Qed.

(** Discharges "the first [n] replies are throttled" in a sample world. *)
Ltac throttled_up_to :=
  let k := fresh "k" in
  let H := fresh "H" in
  intros k H;
  repeat (destruct k as [|k];
          [eexists; split;
           [vm_compute; reflexivity|apply throttled_spec; vm_compute; reflexivity]|]);
  exfalso; lia.

Lemma retry_policy_witness :
  (let r := _crawl_article always_throttled "https://journal.example/a1" 3 at_import in
   fst r = EmptyString
   /\ crawl_effect at_import (snd r) "https://journal.example/a1" EmptyString 3
        (linear_backoffs _FIRECRAWL_MIN_INTERVAL 3))
  /\ (let r := _crawl_article throttled_then_broken "https://journal.example/a1" 3 at_import in
      fst r = EmptyString
      /\ crawl_effect at_import (snd r) "https://journal.example/a1" EmptyString 2
           (linear_backoffs _FIRECRAWL_MIN_INTERVAL 1))
  /\ (let r := _crawl_article throttled_then_ok "https://journal.example/a1" 3 at_import in
      fst r = text_of article
      /\ crawl_effect at_import (snd r) "https://journal.example/a1" (text_of article) 3
           (linear_backoffs _FIRECRAWL_MIN_INTERVAL 2))
  /\ (let r := _ask_dric always_throttled plain_digest "Funded by DRIC." 4 at_import in
      fst r = "NO"
      /\ ask_effect at_import (snd r) "Funded by DRIC." (plain_digest "Funded by DRIC.")
           "NO" 4 (linear_backoffs 1500 4))
  /\ (let r := _ask_dric throttled_then_broken plain_digest "Funded by DRIC." 4 at_import in
      fst r = "NO"
      /\ ask_effect at_import (snd r) "Funded by DRIC." (plain_digest "Funded by DRIC.")
           "NO" 1 (linear_backoffs 1500 0))
  /\ (let r := _ask_dric throttled_then_ok plain_digest "Funded by DRIC." 4 at_import in
      fst r = classify (Some "No.")
      /\ ask_effect at_import (snd r) "Funded by DRIC." (plain_digest "Funded by DRIC.")
           (classify (Some "No.")) 2 (linear_backoffs 1500 1)).
Proof.
  split; [|split; [|split; [|split; [|split]]]].
  - apply (proj1 (proj1 (proj2 (proj2 (retry_policy always_throttled plain_digest)))
                    "https://journal.example/a1" at_import eq_refl) 3%nat).
    throttled_up_to.
  - apply (proj1 (proj2 (proj1 (proj2 (proj2 (retry_policy throttled_then_broken plain_digest)))
                           "https://journal.example/a1" at_import eq_refl)) 3 1%nat).
    + lia.
    + throttled_up_to.
    + eexists; split; [vm_compute; reflexivity|apply not_throttled; vm_compute; reflexivity].
  - apply (proj2 (proj2 (proj1 (proj2 (proj2 (retry_policy throttled_then_ok plain_digest)))
                           "https://journal.example/a1" at_import eq_refl)) 3 2%nat).
    + lia.
    + throttled_up_to.
    + vm_compute; reflexivity.
  - apply (proj1 (proj2 (proj2 (proj2 (retry_policy always_throttled plain_digest)))
                    "Funded by DRIC." at_import eq_refl eq_refl) 4%nat).
    throttled_up_to.
  - apply (proj1 (proj2 (proj2 (proj2 (proj2 (retry_policy throttled_then_broken plain_digest)))
                           "Funded by DRIC." at_import eq_refl eq_refl)) 4 0%nat).
    + lia.
    + throttled_up_to.
    + eexists; split; [vm_compute; reflexivity|apply not_throttled; vm_compute; reflexivity].
  - apply (proj2 (proj2 (proj2 (proj2 (proj2 (retry_policy throttled_then_ok plain_digest)))
                           "Funded by DRIC." at_import eq_refl eq_refl)) 4 1%nat).
    + lia.
    + throttled_up_to.
    + vm_compute; reflexivity.
Defined.

End RetryPolicy.

Section Classifier.
Import Text Dric Spec Worlds.

(** C6.  [_ask_dric] on the empty string returns "NO" and issues no
    request to the model.  On a non-empty text that misses the cache,
    when the model replies (at once, or after throttled attempts), it
    returns "YES" exactly when the reply, stripped and upper-cased,
    starts with "YES", and "NO" for every other reply, an absent or
    empty one included.  Whatever the process did since import, every
    call returns "YES" or "NO": the label cache holds labels only, and
    a call keeps it so. *)
Theorem ask_dric_contract (W : World) (sha256_hexdigest : string -> string) :
  (forall max_retries s,
      let r := _ask_dric W sha256_hexdigest EmptyString max_retries s in
      fst r = "NO" /\ groq_requests (snd r) = groq_requests s
      /\ pauses (snd r) = pauses s /\ _DRIC_CACHE (snd r) = _DRIC_CACHE s)
  /\ (forall text max_retries (j : nat) s content,
        truthy text = true ->
        _DRIC_CACHE s !! sha256_hexdigest text = None ->
        Z.of_nat j < max_retries ->
        (forall k, (k < j)%nat -> throttles (model_reply W s text k)) ->
        model_reply W s text j = Ok content ->
        let answer := fst (_ask_dric W sha256_hexdigest text max_retries s) in
        let reply := upper (strip (match content with
                                   | Some c => c
                                   | None => EmptyString
                                   end)) in
        (answer = "YES" <-> has_prefix "YES" reply)
        /\ (answer = "NO" <-> ~ has_prefix "YES" reply))
  /\ (forall ops text max_retries,
        let s := run_ops W sha256_hexdigest ops at_import in
        let r := _ask_dric W sha256_hexdigest text max_retries s in
        fst r = "YES" \/ fst r = "NO")
  /\ (forall text max_retries s,
        labels_only s ->
        let r := _ask_dric W sha256_hexdigest text max_retries s in
        (fst r = "YES" \/ fst r = "NO") /\ labels_only (snd r)).
Proof.
  assert (labels_only at_import) as Hinit.
  { intros digest answer H. cbn [_DRIC_CACHE at_import] in H.
    rewrite lookup_empty in H. discriminate. }
  split; [|split; [|split]].
  - intros max_retries s. cbv zeta. rewrite ask_dric_empty. repeat split.
  - intros text max_retries j s content Ht Hmiss Hj Hk Hr. cbv zeta.
    destruct (ask_answered W sha256_hexdigest text max_retries j s content
                Ht Hmiss Hj Hk Hr) as [-> _].
    unfold classify.
    assert (or_str content EmptyString
            = match content with Some c => c | None => EmptyString end) as ->.
    { destruct content as [[|c0 c]|]; reflexivity. }
    rewrite <- startswith_prefix.
    destruct (startswith "YES" _); split; split; intros H;
      first [reflexivity | discriminate | now intros E | now exfalso].
  - intros ops text max_retries. cbv zeta.
    apply (ask_dric_any W sha256_hexdigest text max_retries).
    now apply run_ops_labels.
  - intros text max_retries s Hl.
    apply (ask_dric_any W sha256_hexdigest text max_retries s), Hl.
Qed.

Lemma ask_dric_contract_witness :
  (let answer := fst (_ask_dric throttled_then_ok plain_digest "Funded by DRIC." 4 at_import) in
   let reply := upper (strip "No.") in
   (answer = "YES" <-> has_prefix "YES" reply)
   /\ (answer = "NO" <-> ~ has_prefix "YES" reply))
  /\ (let r := _ask_dric always_ok plain_digest "Funded by DRIC." 4 at_import in
      (fst r = "YES" \/ fst r = "NO") /\ labels_only (snd r)).
Proof.
  split.
  - apply (proj1 (proj2 (ask_dric_contract throttled_then_ok plain_digest))
             "Funded by DRIC." 4 1%nat at_import (Some "No.")).
    + reflexivity.
    + reflexivity.
    + lia.
    + intros k H. destruct k as [|k]; [|exfalso; lia].
      eexists; split; [vm_compute; reflexivity|apply throttled_spec; vm_compute; reflexivity].
    + vm_compute; reflexivity.
  - apply (proj2 (proj2 (proj2 (ask_dric_contract always_ok plain_digest)))
             "Funded by DRIC." 4 at_import).
    intros digest answer H. cbn [_DRIC_CACHE at_import] in H.
    rewrite lookup_empty in H. discriminate.
Defined.

End Classifier.

Section RowPipeline.
Import Text Dric Spec Worlds.

(** C5.  In [_process_row]: when the resolver finds no link the record
    carries "NF" and the process state is untouched, so neither wrapper
    was entered; when the link resolves and the fetched text is empty
    the record carries "NF", the fetcher alone was entered and the
    model received nothing; otherwise the record carries what the
    classifier returns for the fetched text. *)
Theorem process_row_contract (W : World) (sha256_hexdigest : string -> string)
    (row : Publication) (s : State) :
  (_extract_article_url W (scholar_link row) = None ->
   _process_row W sha256_hexdigest row s = (emit row "NF", s))
  /\ (forall article_url,
        _extract_article_url W (scholar_link row) = Some article_url ->
        truthy article_url = true ->
        let fetched := _crawl_article W article_url 3 s in
        let r := _process_row W sha256_hexdigest row s in
        (fst fetched = EmptyString ->
         dric (fst r) = "NF"
         /\ snd r = snd fetched
         /\ calls (snd r) = calls s ++ [Crawl article_url]
         /\ groq_requests (snd r) = groq_requests s)
        /\ (fst fetched <> EmptyString ->
            let asked :=
              _ask_dric W sha256_hexdigest (fst fetched) 4 (snd fetched) in
            r = (emit row (fst asked), snd asked)
            /\ dric (fst r) = fst asked
            /\ calls (snd r)
               = calls s ++ [Crawl article_url; Ask (fst fetched)])).
Proof.
  split; [apply process_row_unresolved|].
  intros article_url Hr Hu. cbv zeta.
  rewrite (process_row_resolved W sha256_hexdigest _ _ _ Hr Hu). cbv zeta.
  destruct (crawl_article_any W article_url 3 s) as ((_ & _ & _ & Hg) & Hc & _).
  split.
  - intros E. rewrite E. cbn [truthy fst snd]. repeat split; assumption.
  - intros Hne.
    destruct (fst (_crawl_article W article_url 3 s)) as [|c text] eqn:E;
      [congruence|].
    cbn [truthy fst snd]. repeat split.
    destruct (ask_dric_any W sha256_hexdigest (String c text) 4
                (snd (_crawl_article W article_url 3 s))) as (_ & Hc2 & _).
    rewrite Hc2, Hc, <- app_assoc. reflexivity.
Qed.

Lemma process_row_contract_witness :
  _process_row unresolved plain_digest sample_row at_import
  = (emit sample_row "NF", at_import)
  /\ (let fetched := _crawl_article empty_article "https://journal.example/a1" 3 at_import in
      let r := _process_row empty_article plain_digest sample_row at_import in
      dric (fst r) = "NF"
      /\ snd r = snd fetched
      /\ calls (snd r) = calls at_import ++ [Crawl "https://journal.example/a1"]
      /\ groq_requests (snd r) = groq_requests at_import)
  /\ (let fetched := _crawl_article always_ok "https://journal.example/a1" 3 at_import in
      let r := _process_row always_ok plain_digest sample_row at_import in
      let asked := _ask_dric always_ok plain_digest (fst fetched) 4 (snd fetched) in
      r = (emit sample_row (fst asked), snd asked)
      /\ dric (fst r) = fst asked
      /\ calls (snd r)
         = calls at_import ++ [Crawl "https://journal.example/a1"; Ask (fst fetched)]).
Proof.
  split; [|split].
  - apply (proj1 (process_row_contract unresolved plain_digest sample_row at_import)).
    reflexivity.
  - apply (proj1 (proj2 (process_row_contract empty_article plain_digest sample_row at_import)
                    "https://journal.example/a1" eq_refl eq_refl)).
    vm_compute; reflexivity.
  - apply (proj2 (proj2 (process_row_contract always_ok plain_digest sample_row at_import)
                    "https://journal.example/a1" eq_refl eq_refl)).
    vm_compute. discriminate.
Defined.

End RowPipeline.

Section FailureCache.
Import Text Dric Spec Worlds.

(** C10.  A call that ends on an error other than throttling, after any
    number of throttled attempts, leaves the failure value in the
    cache: "" under the URL for the fetcher, "NO" under the digest of
    the text for the classifier.  Whatever the process does next, a
    later call with the same URL, or the same text, returns that value
    from the cache: the state it leaves differs only by the record of
    the call itself, so no request is issued and nothing is retried. *)
Theorem failure_is_cached (W : World) (sha256_hexdigest : string -> string) :
  (forall url (max_retries : Z) (j : nat) s,
      _ARTICLE_CACHE s !! url = None ->
      Z.of_nat j < max_retries ->
      (forall k, (k < j)%nat -> throttles (scrape_reply W s url k)) ->
      fails_otherwise (scrape_reply W s url j) ->
      let r := _crawl_article W url max_retries s in
      fst r = EmptyString
      /\ _ARTICLE_CACHE (snd r) !! url = Some EmptyString
      /\ forall ops max_retries',
           let s' := run_ops W sha256_hexdigest ops (snd r) in
           _crawl_article W url max_retries' s'
           = (EmptyString, log_call (Crawl url) s'))
  /\ (forall text (max_retries : Z) (j : nat) s,
        truthy text = true ->
        _DRIC_CACHE s !! sha256_hexdigest text = None ->
        Z.of_nat j < max_retries ->
        (forall k, (k < j)%nat -> throttles (model_reply W s text k)) ->
        fails_otherwise (model_reply W s text j) ->
        let r := _ask_dric W sha256_hexdigest text max_retries s in
        fst r = "NO"
        /\ _DRIC_CACHE (snd r) !! sha256_hexdigest text = Some "NO"
        /\ forall ops max_retries',
             let s' := run_ops W sha256_hexdigest ops (snd r) in
             _ask_dric W sha256_hexdigest text max_retries' s'
             = ("NO", log_call (Ask text) s')).
Proof.
  split.
  - intros url max_retries j s Hmiss Hj Hk Hf. cbv zeta.
    destruct (crawl_aborted W url max_retries j s Hmiss Hj Hk Hf) as [Hv (Hc & _)].
    assert (_ARTICLE_CACHE (snd (_crawl_article W url max_retries s)) !! url
            = Some EmptyString) as Hin.
    { rewrite Hc. apply lookup_insert_eq. }
    split; [exact Hv|]. split; [exact Hin|].
    intros ops max_retries'. apply crawl_article_hit.
    now apply (run_ops_keeps W sha256_hexdigest ops).
  - intros text max_retries j s Ht Hmiss Hj Hk Hf. cbv zeta.
    destruct (ask_aborted W sha256_hexdigest text max_retries j s Ht Hmiss Hj Hk Hf)
      as [Hv (Hc & _)].
    assert (_DRIC_CACHE (snd (_ask_dric W sha256_hexdigest text max_retries s))
              !! sha256_hexdigest text = Some "NO") as Hin.
    { rewrite Hc. apply lookup_insert_eq. }
    split; [exact Hv|]. split; [exact Hin|].
    intros ops max_retries'. apply ask_dric_hit; [exact Ht|].
    now apply (run_ops_keeps W sha256_hexdigest ops).
Qed.

Lemma failure_is_cached_witness :
  (let r := _crawl_article throttled_then_broken "https://journal.example/a1" 3 at_import in
   fst r = EmptyString
   /\ _ARTICLE_CACHE (snd r) !! "https://journal.example/a1" = Some EmptyString
   /\ forall ops max_retries',
        let s' := run_ops throttled_then_broken plain_digest ops (snd r) in
        _crawl_article throttled_then_broken "https://journal.example/a1" max_retries' s'
        = (EmptyString, log_call (Crawl "https://journal.example/a1") s'))
  /\ (let r := _ask_dric throttled_then_broken plain_digest "Funded by DRIC." 4 at_import in
      fst r = "NO"
      /\ _DRIC_CACHE (snd r) !! plain_digest "Funded by DRIC." = Some "NO"
      /\ forall ops max_retries',
           let s' := run_ops throttled_then_broken plain_digest ops (snd r) in
           _ask_dric throttled_then_broken plain_digest "Funded by DRIC." max_retries' s'
           = ("NO", log_call (Ask "Funded by DRIC.") s')).
Proof.
  split.
  - apply (proj1 (failure_is_cached throttled_then_broken plain_digest)
             "https://journal.example/a1" 3 1%nat at_import).
    + reflexivity.
    + lia.
    + intros k H. destruct k as [|k]; [|exfalso; lia].
      eexists; split; [vm_compute; reflexivity|apply throttled_spec; vm_compute; reflexivity].
    + eexists; split; [vm_compute; reflexivity|apply not_throttled; vm_compute; reflexivity].
  - apply (proj2 (failure_is_cached throttled_then_broken plain_digest)
             "Funded by DRIC." 4 0%nat at_import).
    + reflexivity.
    + reflexivity.
    + lia.
    + intros k H. exfalso; lia.
    + eexists; split; [vm_compute; reflexivity|apply not_throttled; vm_compute; reflexivity].
Defined.

End FailureCache.

(** * Further properties *)

(** ** Name variants for every name *)

Section QueriesMore.
Import Text Spec Queries.

Lemma blank_split (s : string) : blank s = true -> split s = [].
Proof.
  induction s as [|c s IH]; [reflexivity|].
  simpl. intros [Hc Hs]%andb_prop. rewrite Hc. now apply IH.
Qed.

Lemma build_queries_blank (full_name : string) :
  blank full_name = true -> build_queries full_name = Some [full_name].
Proof.
  intros H. unfold build_queries. now rewrite parts_of_split, (blank_split _ H).
Qed.

(** X1.  [build_queries] never raises, whatever the name: a name without
    any token comes back alone and unchanged; any other name gives a
    list without repetition, of non-empty queries, headed by the name
    stripped of its surrounding whitespace. *)
Theorem build_queries_total (full_name : string) :
  exists variants,
    build_queries full_name = Some variants
    /\ variants <> []
    /\ List.NoDup variants
    /\ (blank full_name = true -> variants = [full_name])
    /\ (blank full_name = false ->
        hd EmptyString variants = strip full_name
        /\ Forall (fun v => v <> EmptyString) variants).
Proof.
  destruct (split full_name) as [|first rest] eqn:Hs.
  - pose proof (split_nil_blank _ Hs) as Hb.
    exists [full_name]. rewrite (build_queries_blank _ Hb).
    repeat split; try discriminate; try congruence.
    repeat constructor. intros [].
  - rewrite (build_queries_tokens _ _ _ Hs). eexists. split; [reflexivity|].
    split; [discriminate|]. split; [apply keep_first_NoDup|].
    split.
    + intros Hb. rewrite (blank_split _ Hb) in Hs. discriminate.
    + intros _. split; [reflexivity|].
      pose proof (preference_truthy (strip full_name) first
                    (List.last (first :: rest) first) (removelast rest)
                    (strip_truthy _ _ _ Hs)) as Hp.
      rewrite Forall_forall in *. intros v Hv E.
      apply (proj1 (keep_first_In _ _)) in Hv.
      specialize (Hp v Hv). rewrite E in Hp. discriminate.
Qed.

Lemma build_queries_total_witness :
  (exists variants,
      build_queries "   " = Some variants /\ variants = ["   "])
  /\ (exists variants,
        build_queries " Kofi Annan " = Some variants
        /\ hd EmptyString variants = strip " Kofi Annan "
        /\ Forall (fun v => v <> EmptyString) variants).
Proof.
  split.
  - destruct (build_queries_total "   ") as (v & H1 & _ & _ & H4 & _).
    exists v. split; [exact H1|apply H4; reflexivity].
  - destruct (build_queries_total " Kofi Annan ") as (v & H1 & _ & _ & _ & H5).
    exists v. split; [exact H1|apply H5; reflexivity].
Defined.

Lemma keep_first_thrice (a : string) : keep_first [a; a; a] = [a].
Proof. simpl. now rewrite !String.eqb_refl. Qed.

(** X2.  A name of exactly two tokens gives two queries, the stripped
    name and the first initial with the last name; the concatenated
    initials repeat the second and are dropped.  When the stripped name
    already is that second query, a single query is left. *)
Theorem build_queries_two_tokens (full_name first last : string) :
  split full_name = [first; last] ->
  build_queries full_name
  = Some (if String.eqb (strip full_name) (spaced (initial first) last)
          then [strip full_name]
          else [strip full_name; spaced (initial first) last]).
Proof.
  intros Hs. rewrite (build_queries_tokens _ _ _ Hs).
  pose proof (split_tokens full_name) as Htok. rewrite Hs in Htok.
  apply Forall_inv in Htok. destruct Htok as [Hf _].
  destruct first as [|c first]; [discriminate|].
  change (preference (strip full_name) (String c first) (removelast [last])
            (List.last [String c first; last] (String c first)))
    with [strip full_name; spaced (initial (String c first)) last;
          spaced (initial (String c first)) last].
  destruct (String.eqb_spec (strip full_name) (spaced (initial (String c first)) last))
    as [E|N].
  - rewrite <- E. now rewrite keep_first_thrice.
  - now rewrite (keep_first_twice _ _ N).
Qed.

Lemma build_queries_two_tokens_witness :
  split " Ama   Mensah" = ["Ama"; "Mensah"]
  /\ build_queries " Ama   Mensah" = Some ["Ama   Mensah"; "A Mensah"]
  /\ split "A Mensah" = ["A"; "Mensah"]
  /\ build_queries "A Mensah" = Some ["A Mensah"].
Proof.
  split; [reflexivity|]. split.
  - exact (build_queries_two_tokens " Ama   Mensah" "Ama" "Mensah" eq_refl).
  - split; [reflexivity|].
    exact (build_queries_two_tokens "A Mensah" "A" "Mensah" eq_refl).
Defined.

End QueriesMore.

(** ** Year bounds *)

Section BoundsMore.
Import Text Spec Collector.

Lemma digit_val_range (c : ascii) :
  is_digit c = true -> 0 <= digit_val c <= 9.
Proof.
  unfold is_digit, digit_val. intros [H1 H2]%andb_prop.
  apply N.leb_le in H1. apply N.leb_le in H2. lia.
Qed.

Lemma four_digits_range (a b c d : ascii) :
  digits4 a b c d = true -> 0 <= int_digits 0 (four a b c d) <= 9999.
Proof.
  unfold digits4. intros [[[Ha Hb]%andb_prop Hc]%andb_prop Hd]%andb_prop.
  apply digit_val_range in Ha, Hb, Hc, Hd.
  unfold four. cbn [int_digits]. lia.
Qed.

Lemma findall4_range (s : string) :
  Forall (fun y => 0 <= y <= 9999) (map (int_digits 0) (findall4 s)).
Proof.
  remember (String.length s) as n eqn:Hn. revert s Hn.
  induction n as [n IH] using lt_wf_ind. intros s Hn.
  destruct s as [|a [|b [|c [|d rest]]]]; try constructor.
  rewrite findall4_unfold. destruct (digits4 a b c d) eqn:Hd.
  - cbn [map]. constructor; [now apply four_digits_range|].
    apply (IH (String.length rest)); [subst n; simpl; lia|reflexivity].
  - apply (IH (String.length (String b (String c (String d rest)))));
      [subst n; simpl; lia|reflexivity].
Qed.

(** X3.  Whenever the period parses, the bounds are years between 0 and
    9999 and the lower one is not above the upper one. *)
Theorem year_bounds_ordered (period : string) (year_min year_max : Z) :
  year_bounds period = inr (year_min, year_max) ->
  0 <= year_min /\ year_min <= year_max /\ year_max <= 9999.
Proof.
  intros H. destruct (years_in_period period) as [|y ys] eqn:E.
  - unfold year_bounds in H. rewrite E in H. discriminate.
  - rewrite (year_bounds_some _ _ _ E) in H. injection H as <- <-.
    pose proof (findall4_range period) as Hr.
    fold (years_in_period period) in Hr. rewrite E in Hr.
    rewrite Forall_forall in Hr.
    destruct (min_of_spec y ys) as [Hmin Hle], (max_of_spec y ys) as [Hmax Hge].
    pose proof (Hr _ Hmin). pose proof (Hr _ Hmax).
    specialize (Hle _ Hmax). lia.
Qed.

Lemma year_bounds_ordered_witness :
  year_bounds "2019/2017" = inr (2017, 2019)
  /\ 0 <= 2017 /\ 2017 <= 2019 /\ 2019 <= 9999.
Proof.
  split; [reflexivity|].
  exact (year_bounds_ordered "2019/2017" 2017 2019 eq_refl).
Defined.

End BoundsMore.

(** ** What a scrape returns *)

Section ScraperMore.
Import Text Scraper Spec Invariants.

Lemma extract_rows_Forall (P : Row -> Prop) (t : Table) (pass : nat)
    (year_min : Z) (idxs : list Z) :
  forall results,
    Forall P results ->
    (forall i, In i idxs -> below_floor t pass year_min i = false ->
               P (read_row (cells t pass i))) ->
    match extract_rows t pass year_min idxs results with
    | Completed r => Forall P r
    | Returned r => Forall P r
    end.
Proof.
  induction idxs as [|i idxs IH]; intros results Hr Hi; [exact Hr|].
  rewrite extract_rows_step. destruct (below_floor t pass year_min i) eqn:Hb.
  - exact Hr.
  - apply IH.
    + apply Forall_app. split; [exact Hr|]. repeat constructor.
      apply Hi; [now left|exact Hb].
    + intros j Hj. apply Hi. now right.
Qed.

Lemma finish_Forall (P : Row -> Prop) (per_name_limit : option Z)
    (results : list Row) :
  Forall P results -> Forall P (finish per_name_limit results).
Proof.
  intros H. destruct per_name_limit as [l|]; [|exact H].
  assert (forall n, Forall P (firstn n results)) as Hn.
  { intros n. rewrite <- (firstn_skipn n results) in H.
    apply Forall_app in H. apply H. }
  unfold finish, slice_to. destruct (0 <=? l); apply Hn.
Qed.

(** A property that every kept row has, under a guard [G] that every
    value of [last_count] meets, holds of all the rows returned. *)
Lemma scroll_loop_Forall (P : Row -> Prop) (G : Z -> Prop) (t : Table)
    (year_min : Z) (per_name_limit : option Z) :
  (forall pass, G (row_count t pass)) ->
  (forall pass last_count i,
      G last_count ->
      In i (range (last_count + 1)
              (stop_index (row_count t pass) per_name_limit)) ->
      below_floor t pass year_min i = false ->
      P (read_row (cells t pass i))) ->
  forall fuel pass last_count results rows,
    G last_count ->
    Forall P results ->
    scroll_loop fuel t year_min per_name_limit pass last_count results
    = Some rows ->
    Forall P rows.
Proof.
  intros HG HP. induction fuel as [|fuel IH];
    intros pass last_count results rows Hg Hr; [discriminate|].
  cbn [scroll_loop].
  pose proof (extract_rows_Forall P t pass year_min
                (range (last_count + 1)
                   (stop_index (row_count t pass) per_name_limit))
                results Hr (fun i Hi Hb => HP pass last_count i Hg Hi Hb)) as He.
  destruct (extract_rows t pass year_min _ results) as [r|r].
  - destruct ((row_count t pass =? last_count) || limit_hit per_name_limit r).
    + intros [= <-]. now apply finish_Forall.
    + destruct (scroll_ok t pass).
      * apply IH; [apply HG|exact He].
      * intros [= <-]. now apply finish_Forall.
  - now intros [= <-].
Qed.

Lemma scrape_for_name_Forall (P : Row -> Prop) (G : Z -> Prop)
    (fuel : nat) (page : string -> Table) (query : string)
    (year_min year_max : Z) (per_name_limit : option Z) (rows : list Row) :
  G (-1) ->
  (forall pass, G (row_count (page query) pass)) ->
  (forall pass last_count i,
      G last_count ->
      In i (range (last_count + 1)
              (stop_index (row_count (page query) pass) per_name_limit)) ->
      below_floor (page query) pass year_min i = false ->
      P (read_row (cells (page query) pass i))) ->
  scrape_for_name fuel page query year_min year_max per_name_limit = Some rows ->
  Forall P rows.
Proof.
  intros H0 HG HP. unfold scrape_for_name.
  destruct (rows_appear (page query)); [|intros [= <-]; constructor].
  apply (scroll_loop_Forall P G _ _ _ HG HP); [exact H0|constructor].
Qed.

(** X4.  No row whose year reads below [year_min] is ever returned by
    [scrape_for_name], whatever the table shows and however the scrape
    ends: each returned row has no readable year or a year from
    [year_min] up. *)
Theorem scrape_never_below_floor (fuel : nat) (page : string -> Table)
    (query : string) (year_min year_max : Z) (per_name_limit : option Z)
    (rows : list Row) :
  scrape_for_name fuel page query year_min year_max per_name_limit = Some rows ->
  Forall (at_or_above year_min) rows.
Proof.
  apply (scrape_for_name_Forall (at_or_above year_min) (fun _ => True));
    [exact I|intros; exact I|].
  intros pass last_count i _ _ Hb. unfold at_or_above, below_floor in *.
  destruct (cells (page query) pass i) as [a ti h y]. cbn [read_row snd fst year_cell] in *.
  destruct (parse_year (strip y)); [|exact I]. apply Z.ltb_ge in Hb. exact Hb.
Qed.

Lemma scrape_never_below_floor_witness :
  scrape_for_name 3 (fun _ => descending_table batches_3_10) "q" 2020 2025 None
  = Some (map descending_row [0; 1; 2; 4; 5])
  /\ Forall (at_or_above 2020) (map descending_row [0; 1; 2; 4; 5]).
Proof.
  split; [reflexivity|].
  exact (scrape_never_below_floor 3 (fun _ => descending_table batches_3_10)
           "q" 2020 2025 None _ eq_refl).
Defined.

(** X5.  When the row count is never negative, every row returned was
    read at some pass from a rendered index: one from 0 up, below the
    count read at that pass, and below the cap when there is one. *)
Theorem scrape_rows_readable (fuel : nat) (page : string -> Table)
    (query : string) (year_min year_max : Z) (per_name_limit : option Z)
    (rows : list Row) :
  (forall pass, 0 <= row_count (page query) pass) ->
  scrape_for_name fuel page query year_min year_max per_name_limit = Some rows ->
  Forall (readable (page query) per_name_limit) rows.
Proof.
  intros Hc.
  apply (scrape_for_name_Forall (readable (page query) per_name_limit)
           (fun l => -1 <= l)); [lia|intros pass; specialize (Hc pass); lia|].
  intros pass last_count i Hl Hi%range_In _. exists pass, i. split; [lia|reflexivity].
Qed.

Lemma scrape_rows_readable_witness :
  (forall pass, 0 <= row_count (flat_table batches_3_6) pass)
  /\ scrape_for_name 3 (fun _ => flat_table batches_3_6) "q" 2020 2025 (Some 5)
     = Some (map flat_row [0; 1; 2; 4])
  /\ Forall (readable (flat_table batches_3_6) (Some 5)) (map flat_row [0; 1; 2; 4]).
Proof.
  assert (forall pass, 0 <= row_count (flat_table batches_3_6) pass) as H.
  { intros [|pass]; simpl; lia. }
  split; [exact H|]. split; [reflexivity|].
  exact (scrape_rows_readable 3 (fun _ => flat_table batches_3_6) "q" 2020 2025
           (Some 5) _ H eq_refl).
Defined.

End ScraperMore.

(** ** How long and how much a scrape reads *)

Section ScraperBounds.
Import Text Scraper Spec Invariants.

Lemma extract_rows_length (t : Table) (pass : nat) (year_min : Z)
    (idxs : list Z) :
  forall results,
    match extract_rows t pass year_min idxs results with
    | Completed r => (List.length r <= List.length results + List.length idxs)%nat
    | Returned r => (List.length r <= List.length results + List.length idxs)%nat
    end.
Proof.
  induction idxs as [|i idxs IH]; intros results; [simpl; lia|].
  rewrite extract_rows_step. destruct (below_floor t pass year_min i).
  - simpl. lia.
  - specialize (IH (results ++ [read_row (cells t pass i)])).
    rewrite length_app in IH. simpl in *.
    destruct (extract_rows t pass year_min idxs _); lia.
Qed.

Lemma range_length (lo hi : Z) : List.length (range lo hi) = Z.to_nat (hi - lo).
Proof. unfold range. now rewrite length_map, length_seq. Qed.

Lemma finish_length (per_name_limit : option Z) (results : list Row) :
  (List.length (finish per_name_limit results) <= List.length results)%nat.
Proof.
  destruct per_name_limit as [l|]; [|simpl; lia].
  unfold finish, slice_to. destruct (0 <=? l); rewrite length_firstn; lia.
Qed.

Lemma scroll_loop_length (t : Table) (year_min : Z) (per_name_limit : option Z) :
  growing t ->
  forall fuel pass last_count results rows,
    -1 <= last_count <= row_count t pass ->
    Z.of_nat (List.length results) <= Z.max 0 (stop_index last_count per_name_limit) ->
    scroll_loop fuel t year_min per_name_limit pass last_count results = Some rows ->
    exists p,
      Z.of_nat (List.length rows)
      <= Z.max 0 (stop_index (row_count t p) per_name_limit).
Proof.
  intros [Hpos Hmono]. induction fuel as [|fuel IH];
    intros pass last_count results rows Hl Hlen; [discriminate|].
  cbn [scroll_loop].
  pose proof (extract_rows_length t pass year_min
                (range (last_count + 1)
                   (stop_index (row_count t pass) per_name_limit)) results) as He.
  rewrite range_length in He.
  assert (forall r : list Row,
             (List.length r <= List.length results
              + Z.to_nat (stop_index (row_count t pass) per_name_limit
                          - (last_count + 1)))%nat ->
             Z.of_nat (List.length r)
             <= Z.max 0 (stop_index (row_count t pass) per_name_limit)) as Hstep.
  { intros r Hr. unfold stop_index in *. destruct per_name_limit as [l|]; lia. }
  destruct (extract_rows t pass year_min _ results) as [r|r].
  - specialize (Hstep r He).
    destruct ((row_count t pass =? last_count) || limit_hit per_name_limit r).
    + intros [= <-]. exists pass. pose proof (finish_length per_name_limit r). lia.
    + destruct (scroll_ok t pass).
      * apply IH; [|exact Hstep]. specialize (Hpos pass). specialize (Hmono pass). lia.
      * intros [= <-]. exists pass. pose proof (finish_length per_name_limit r). lia.
  - intros [= <-]. exists pass. now apply Hstep.
Qed.

(** X6.  On a table whose row count never shrinks, [scrape_for_name]
    returns no more rows than some read found rendered, and no more
    than the cap when there is one. *)
Theorem scrape_within_cap (fuel : nat) (page : string -> Table)
    (query : string) (year_min year_max : Z) (per_name_limit : option Z)
    (rows : list Row) :
  growing (page query) ->
  scrape_for_name fuel page query year_min year_max per_name_limit = Some rows ->
  (exists pass,
      Z.of_nat (List.length rows) <= Z.max 0 (row_count (page query) pass))
  /\ match per_name_limit with
     | Some l => Z.of_nat (List.length rows) <= Z.max 0 l
     | None => True
     end.
Proof.
  intros Hg. unfold scrape_for_name.
  destruct (rows_appear (page query)).
  - intros H.
    destruct (scroll_loop_length _ year_min per_name_limit Hg fuel O (-1) [] rows)
      as [p Hp]; [destruct Hg as [Hpos _]; specialize (Hpos O); lia| |exact H|].
    + unfold stop_index. destruct per_name_limit; simpl; lia.
    + unfold stop_index in Hp. split; [exists p|]; destruct per_name_limit; lia.
  - intros [= <-]. split; [exists O|]; destruct per_name_limit; simpl;
      try (destruct Hg as [Hpos _]; specialize (Hpos O)); lia.
Qed.

Lemma batches_3_6_growing : growing (flat_table batches_3_6).
Proof.
  split; intros [|[|pass]]; simpl; lia.
Qed.

Lemma scrape_within_cap_witness :
  growing (flat_table batches_3_6)
  /\ scrape_for_name 3 (fun _ => flat_table batches_3_6) "q" 2020 2025 (Some 2)
     = Some (map flat_row [0; 1])
  /\ (exists pass,
        Z.of_nat (List.length (map flat_row [0; 1]))
        <= Z.max 0 (row_count (flat_table batches_3_6) pass))
  /\ Z.of_nat (List.length (map flat_row [0; 1])) <= Z.max 0 2.
Proof.
  split; [exact batches_3_6_growing|]. split; [reflexivity|].
  exact (scrape_within_cap 3 (fun _ => flat_table batches_3_6) "q" 2020 2025
           (Some 2) _ batches_3_6_growing eq_refl).
Defined.

Lemma scroll_loop_ends (t : Table) (year_min : Z) (per_name_limit : option Z)
    (k : nat) :
  row_count t (S k) = row_count t k ->
  forall d pass last_count results fuel,
    (pass + d = S k)%nat ->
    (pass = S k -> last_count = row_count t k) ->
    (d < fuel)%nat ->
    exists rows,
      scroll_loop fuel t year_min per_name_limit pass last_count results
      = Some rows.
Proof.
  intros Hk. induction d as [|d IH]; intros pass last_count results fuel Hp Hl Hf;
    (destruct fuel as [|fuel]; [lia|]); cbn [scroll_loop];
    destruct (extract_rows t pass year_min _ results) as [r|r]; eauto.
  - assert (pass = S k) as -> by lia.
    rewrite (Hl eq_refl), Hk, Z.eqb_refl. cbn [orb]. eauto.
  - destruct ((row_count t pass =? last_count) || limit_hit per_name_limit r);
      eauto.
    destruct (scroll_ok t pass); eauto.
    apply IH; [lia| |lia]. intros E. f_equal. lia.
Qed.

(** X7.  The scrape ends: when some read of the row count repeats the
    one before it, pass [k + 1] and pass [k], [scrape_for_name] returns
    within [k + 2] passes, however the rows, the cap and the scroller
    behave. *)
Theorem scrape_ends_when_count_repeats (fuel k : nat) (page : string -> Table)
    (query : string) (year_min year_max : Z) (per_name_limit : option Z) :
  row_count (page query) (S k) = row_count (page query) k ->
  (k + 2 <= fuel)%nat ->
  exists rows,
    scrape_for_name fuel page query year_min year_max per_name_limit = Some rows.
Proof.
  intros Hk Hf. unfold scrape_for_name.
  destruct (rows_appear (page query)); [|eauto].
  apply (scroll_loop_ends _ _ _ k Hk (S k) O); [lia|discriminate|lia].
Qed.

Lemma scrape_ends_when_count_repeats_witness :
  row_count (flat_table batches_3_6) 2 = row_count (flat_table batches_3_6) 1
  /\ (1 + 2 <= 3)%nat
  /\ exists rows,
       scrape_for_name 3 (fun _ => flat_table batches_3_6) "q" 2020 2025 None
       = Some rows.
Proof.
  split; [reflexivity|]. split; [lia|].
  exact (scrape_ends_when_count_repeats 3 1 (fun _ => flat_table batches_3_6)
           "q" 2020 2025 None eq_refl ltac:(lia)).
Defined.

End ScraperBounds.

(** ** What the collector saves *)

Section CollectorMore.
Import Text Scraper Spec Collector Invariants.








End CollectorMore.

(** ** Caches and request counts of the wrappers *)

Section WrappersMore.
Import Text Dric Spec Worlds Invariants.
Variable W : World.
Variable sha256_hexdigest : string -> string.

Lemma crawl_article_caches (url : string) (max_retries : Z) (s : State) :
  let r := _crawl_article W url max_retries s in
  _ARTICLE_CACHE (snd r) !! url = Some (fst r).
Proof.
  cbv zeta. destruct (_ARTICLE_CACHE s !! url) as [text|] eqn:Hc.
  - rewrite (crawl_article_hit _ _ _ _ _ Hc). exact Hc.
  - rewrite (crawl_article_miss _ _ _ _ Hc). cbv zeta.
    destruct (crawl_attempts_any W url (Scraper.range 1 (max_retries + 1))
                (log_call (Crawl url) s)) as (_ & _ & Hcache).
    destruct (crawl_attempts W url (build_opts url) _ _) as [[text|] s'];
      cbn [fst snd] in *.
    + rewrite Hcache. apply lookup_insert_eq.
    + apply lookup_insert_eq.
Qed.

Lemma ask_dric_caches (text : string) (max_retries : Z) (s : State) :
  truthy text = true ->
  let r := _ask_dric W sha256_hexdigest text max_retries s in
  _DRIC_CACHE (snd r) !! sha256_hexdigest text = Some (fst r).
Proof.
  intros Ht. cbv zeta.
  destruct (_DRIC_CACHE s !! sha256_hexdigest text) as [answer|] eqn:Hc.
  - rewrite (ask_dric_hit _ _ _ _ _ _ Ht Hc). exact Hc.
  - rewrite (ask_dric_miss _ _ _ _ _ Ht Hc). cbv zeta.
    destruct (ask_attempts_any W text (sha256_hexdigest text)
                (Scraper.range 1 (max_retries + 1)) (log_call (Ask text) s))
      as (_ & _ & Hcache).
    destruct (ask_attempts W text (sha256_hexdigest text) _ _) as [[answer|] s'];
      cbn [fst snd] in *.
    + destruct Hcache as [_ ->]. apply lookup_insert_eq.
    + apply lookup_insert_eq.
Qed.

Lemma crawl_attempts_requests (url : string) (attempts : list Z) :
  forall s : State,
    let s' := snd (crawl_attempts W url (build_opts url) attempts s) in
    (List.length (firecrawl_requests s) + Nat.min 1 (List.length attempts)
     <= List.length (firecrawl_requests s'))%nat
    /\ (List.length (firecrawl_requests s')
        <= List.length (firecrawl_requests s) + List.length attempts)%nat.
Proof.
  induction attempts as [|a rest IH]; intros s; cbv zeta; [simpl; lia|].
  rewrite crawl_attempts_cons. cbv zeta.
  destruct (crawl_request W url s) as (_ & _ & _ & _ & Hn & _).
  set (s2 := snd (firecrawl_scrape W url (build_opts url) (snd (pace_firecrawl s)))) in *.
  destruct (fst (firecrawl_scrape W url (build_opts url) (snd (pace_firecrawl s))))
    as [result|message]; cbn [fst snd set_article firecrawl_requests length].
  - change (firecrawl_requests (set_article url (text_of result) s2))
      with (firecrawl_requests s2). lia.
  - destruct (throttled message); cbn [snd]; [|lia].
    specialize (IH (snd (sleep (Backoff (_FIRECRAWL_MIN_INTERVAL * a)) s2))).
    cbv zeta in IH.
    change (firecrawl_requests (snd (sleep (Backoff (_FIRECRAWL_MIN_INTERVAL * a)) s2)))
      with (firecrawl_requests s2) in IH.
    destruct rest; simpl in *; lia.
Qed.

Lemma ask_attempts_requests (text digest : string) (attempts : list Z) :
  forall s : State,
    let s' := snd (ask_attempts W text digest attempts s) in
    (List.length (groq_requests s) + Nat.min 1 (List.length attempts)
     <= List.length (groq_requests s'))%nat
    /\ (List.length (groq_requests s')
        <= List.length (groq_requests s) + List.length attempts)%nat.
Proof.
  induction attempts as [|a rest IH]; intros s; cbv zeta; [simpl; lia|].
  rewrite ask_attempts_cons. cbv zeta.
  destruct (ask_request W text s) as (_ & _ & _ & _ & Hn & _).
  set (s2 := snd (groq_invoke W (PROMPT_TEMPLATE text)
                    (set_last_groq (clock (snd (pace_groq s))) (snd (pace_groq s))))) in *.
  destruct (fst (groq_invoke W (PROMPT_TEMPLATE text)
                   (set_last_groq (clock (snd (pace_groq s))) (snd (pace_groq s)))))
    as [content|message]; cbn [fst snd length].
  - change (groq_requests (set_dric digest (classify content) s2))
      with (groq_requests s2). lia.
  - destruct (throttled message); cbn [snd]; [|lia].
    specialize (IH (snd (sleep (Backoff (1500 * a)) s2))).
    cbv zeta in IH.
    change (groq_requests (snd (sleep (Backoff (1500 * a)) s2)))
      with (groq_requests s2) in IH.
    destruct rest; simpl in *; lia.
Qed.

Lemma attempts_length (max_retries : Z) :
  List.length (Scraper.range 1 (max_retries + 1)) = Z.to_nat max_retries.
Proof. rewrite range_length. f_equal. lia. Qed.

End WrappersMore.

Section CacheContracts.
Import Text Dric Spec Worlds Invariants.

(** X9.  Fetching is idempotent within a process: whatever the service
    answered, a call of [_crawl_article] leaves the value it returns in
    the cache under the URL, and any later call for that URL, after
    anything else the process does, returns the same value and changes
    nothing but the record of the call: no request, no sleep. *)
Theorem crawl_article_idempotent (W : World) (sha256_hexdigest : string -> string)
    (url : string) (max_retries max_retries' : Z) (s : State) (ops : list op) :
  let r := _crawl_article W url max_retries s in
  let s' := run_ops W sha256_hexdigest ops (snd r) in
  _ARTICLE_CACHE (snd r) !! url = Some (fst r)
  /\ _crawl_article W url max_retries' s' = (fst r, log_call (Crawl url) s').
Proof.
  cbv zeta. pose proof (crawl_article_caches W url max_retries s) as Hc.
  split; [exact Hc|]. apply crawl_article_hit.
  now apply (run_ops_keeps W sha256_hexdigest ops).
Qed.

(** X10.  Labels are cached by content: after [_ask_dric] on a non-empty
    text, any later call on a non-empty text with the same digest, the
    same text fetched from another URL for one, returns the same label
    and changes nothing but the record of the call. *)
Theorem ask_dric_shared_by_digest (W : World)
    (sha256_hexdigest : string -> string) (text text' : string)
    (max_retries max_retries' : Z) (s : State) (ops : list op) :
  truthy text = true ->
  truthy text' = true ->
  sha256_hexdigest text' = sha256_hexdigest text ->
  let r := _ask_dric W sha256_hexdigest text max_retries s in
  let s' := run_ops W sha256_hexdigest ops (snd r) in
  _ask_dric W sha256_hexdigest text' max_retries' s'
  = (fst r, log_call (Ask text') s').
Proof.
  intros Ht Ht' Hd. cbv zeta.
  pose proof (ask_dric_caches W sha256_hexdigest text max_retries s Ht) as Hc.
  apply ask_dric_hit; [exact Ht'|]. rewrite Hd.
  now apply (run_ops_keeps W sha256_hexdigest ops).
Qed.

Lemma ask_dric_shared_by_digest_witness :
  let r := _ask_dric always_ok plain_digest "Funded by DRIC." 4 at_import in
  let s' := run_ops always_ok plain_digest
              [DoCrawl "https://b.example/2" 3; DoRow sample_row] (snd r) in
  _ask_dric always_ok plain_digest "Funded by DRIC." 4 s'
  = (fst r, log_call (Ask "Funded by DRIC.") s').
Proof.
  exact (ask_dric_shared_by_digest always_ok plain_digest "Funded by DRIC."
           "Funded by DRIC." 4 4 at_import
           [DoCrawl "https://b.example/2" 3; DoRow sample_row]
           eq_refl eq_refl eq_refl).
Defined.

(** X11.  The caches only grow: no fetch, classification or row of the
    pipeline ever removes an entry of either cache or changes the value
    stored under a key. *)
Theorem caches_only_grow (W : World) (sha256_hexdigest : string -> string)
    (ops : list op) (s : State) :
  let s' := run_ops W sha256_hexdigest ops s in
  (forall url text, _ARTICLE_CACHE s !! url = Some text ->
                    _ARTICLE_CACHE s' !! url = Some text)
  /\ (forall digest answer, _DRIC_CACHE s !! digest = Some answer ->
                            _DRIC_CACHE s' !! digest = Some answer).
Proof. apply run_ops_keeps. Qed.

Lemma caches_only_grow_witness :
  let s := snd (_crawl_article always_ok "https://a.example/1" 3 at_import) in
  let s' := run_ops always_ok plain_digest
              [DoRow sample_row; DoAsk "Funded by DRIC." 4] s in
  _ARTICLE_CACHE s !! "https://a.example/1" = Some (text_of article)
  /\ _ARTICLE_CACHE s' !! "https://a.example/1" = Some (text_of article).
Proof.
  cbv zeta.
  assert (_ARTICLE_CACHE (snd (_crawl_article always_ok "https://a.example/1" 3 at_import))
            !! "https://a.example/1" = Some (text_of article)) as H
    by (vm_compute; reflexivity).
  split; [exact H|].
  exact (proj1 (caches_only_grow always_ok plain_digest
                  [DoRow sample_row; DoAsk "Funded by DRIC." 4] _) _ _ H).
Defined.

(** X12.  Requests are bounded per call.  [_crawl_article] sends nothing
    on a cache hit; on a miss it sends at least one request when
    [max_retries] is at least 1 and never more than [max_retries], and no
    request to the model.  [_ask_dric] sends nothing for the empty text
    or on a cache hit, and otherwise between one and [max_retries]
    requests, none to the extraction service. *)
Theorem requests_bounded (W : World) (sha256_hexdigest : string -> string)
    (max_retries : Z) (s : State) :
  (forall url,
      let s' := snd (_crawl_article W url max_retries s) in
      groq_requests s' = groq_requests s
      /\ match _ARTICLE_CACHE s !! url with
         | Some _ => firecrawl_requests s' = firecrawl_requests s
         | None =>
             (List.length (firecrawl_requests s) + Z.to_nat (Z.min 1 max_retries)
              <= List.length (firecrawl_requests s'))%nat
             /\ (List.length (firecrawl_requests s')
                 <= List.length (firecrawl_requests s) + Z.to_nat max_retries)%nat
         end)
  /\ (forall text,
        let s' := snd (_ask_dric W sha256_hexdigest text max_retries s) in
        firecrawl_requests s' = firecrawl_requests s
        /\ if truthy text
           then match _DRIC_CACHE s !! sha256_hexdigest text with
                | Some _ => groq_requests s' = groq_requests s
                | None =>
                    (List.length (groq_requests s) + Z.to_nat (Z.min 1 max_retries)
                     <= List.length (groq_requests s'))%nat
                    /\ (List.length (groq_requests s')
                        <= List.length (groq_requests s) + Z.to_nat max_retries)%nat
                end
           else groq_requests s' = groq_requests s).
Proof.
  split.
  - intros url. cbv zeta.
    split; [apply (crawl_article_any W url max_retries s)|].
    destruct (_ARTICLE_CACHE s !! url) as [text|] eqn:Hc.
    + now rewrite (crawl_article_hit _ _ _ _ _ Hc).
    + rewrite (crawl_article_miss _ _ _ _ Hc). cbv zeta.
      pose proof (crawl_attempts_requests W url (Scraper.range 1 (max_retries + 1))
                    (log_call (Crawl url) s)) as Hb.
      cbv zeta in Hb. rewrite attempts_length in Hb.
      change (firecrawl_requests (log_call (Crawl url) s))
        with (firecrawl_requests s) in Hb.
      destruct (crawl_attempts W url (build_opts url) _ _) as [[text|] s'];
        cbn [fst snd] in *;
        try change (firecrawl_requests (set_article url EmptyString s'))
          with (firecrawl_requests s'); lia.
  - intros text. cbv zeta.
    split; [apply (ask_dric_any W sha256_hexdigest text max_retries s)|].
    destruct (truthy text) eqn:Ht.
    2:{ destruct text; [|discriminate]. now rewrite ask_dric_empty. }
    destruct (_DRIC_CACHE s !! sha256_hexdigest text) as [answer|] eqn:Hc.
    + now rewrite (ask_dric_hit _ _ _ _ _ _ Ht Hc).
    + rewrite (ask_dric_miss _ _ _ _ _ Ht Hc). cbv zeta.
      pose proof (ask_attempts_requests W text (sha256_hexdigest text)
                    (Scraper.range 1 (max_retries + 1))
                    (log_call (Ask text) s)) as Hb.
      cbv zeta in Hb. rewrite attempts_length in Hb.
      change (groq_requests (log_call (Ask text) s)) with (groq_requests s) in Hb.
      destruct (ask_attempts W text (sha256_hexdigest text) _ _) as [[answer|] s'];
        cbn [fst snd] in *;
        try change (groq_requests (set_dric (sha256_hexdigest text) "NO" s'))
          with (groq_requests s'); lia.
Qed.

End CacheContracts.

(** ** Spacing of the calls to the model *)

Section Pacing.
Import Text Dric Spec Worlds Invariants.
Variable W : World.
Variable sha256_hexdigest : string -> string.
Hypothesis latency : nonneg_latency W.

Lemma spaced_by_snoc (interval t : Z) (times : list Z) :
  spaced_by interval times ->
  Forall (fun x => x + interval <= t) times ->
  spaced_by interval (times ++ [t]).
Proof.
  induction times as [|a times IH]; intros Hs Hf; [simpl; auto|].
  destruct Hs as [Ha Hs]. inversion Hf as [|? ? Hat Hft]; subst.
  specialize (IH Hs Hft). destruct times as [|b times].
  - simpl. auto.
  - change ((a :: b :: times) ++ [t]) with (a :: (b :: times) ++ [t]).
    split; [exact Ha|exact IH].
Qed.

Lemma groq_paced_later (s s' : State) :
  groq_paced s ->
  groq_requests s' = groq_requests s ->
  _LAST_GROQ_CALL s' = _LAST_GROQ_CALL s ->
  clock s <= clock s' ->
  groq_paced s'.
Proof.
  unfold groq_paced, groq_times. intros [Hs Hl] -> -> Hc. split; [exact Hs|].
  destruct (_LAST_GROQ_CALL s); [|exact Hl]. split; [lia|apply Hl].
Qed.

Lemma pace_groq_waits (s : State) :
  let s1 := snd (pace_groq s) in
  groq_requests s1 = groq_requests s
  /\ _LAST_GROQ_CALL s1 = _LAST_GROQ_CALL s
  /\ clock s <= clock s1
  /\ forall last, _LAST_GROQ_CALL s = Some last ->
                  last + _GROQ_MIN_INTERVAL <= clock s1.
Proof.
  unfold pace_groq, bind, get, monotonic.
  destruct (_LAST_GROQ_CALL s) as [last|] eqn:E.
  - destruct (clock s - last <? _GROQ_MIN_INTERVAL) eqn:Hlt.
    + apply Z.ltb_lt in Hlt. cbn. rewrite E. repeat split; try lia.
      intros ? [= <-]. lia.
    + apply Z.ltb_ge in Hlt. cbn. rewrite E. repeat split; try lia.
      intros ? [= <-]. lia.
  - cbn. rewrite E. repeat split; try lia. discriminate.
Qed.

Lemma pace_firecrawl_clock (s : State) :
  clock s <= clock (snd (pace_firecrawl s)).
Proof.
  unfold pace_firecrawl, bind, get, monotonic.
  destruct (_LAST_FIRECRAWL_CALL s) as [last|]; [|cbn; lia].
  destruct (clock s - last <? _FIRECRAWL_MIN_INTERVAL) eqn:Hlt; [|cbn; lia].
  apply Z.ltb_lt in Hlt. cbn. lia.
Qed.

Lemma firecrawl_scrape_clock (url : string) (opts : scrape_opts) (s : State) :
  clock s <= clock (snd (firecrawl_scrape W url opts s)).
Proof.
  unfold firecrawl_scrape. pose proof (proj1 latency (List.length (firecrawl_requests s)) url opts).
  destruct (scrape_url W _ url opts) as [ms r]. cbn in *. lia.
Qed.

Lemma crawl_attempts_clock (url : string) (attempts : list Z) :
  Forall (fun a => 0 <= a) attempts ->
  forall s, clock s <= clock (snd (crawl_attempts W url (build_opts url) attempts s)).
Proof.
  induction 1 as [|a rest Ha _ IH]; intros s; [simpl; lia|].
  rewrite crawl_attempts_cons. cbv zeta.
  pose proof (pace_firecrawl_clock s) as H1.
  pose proof (firecrawl_scrape_clock url (build_opts url) (snd (pace_firecrawl s))) as H2.
  set (s2 := snd (firecrawl_scrape W url (build_opts url) (snd (pace_firecrawl s)))) in *.
  destruct (fst (firecrawl_scrape W url (build_opts url) (snd (pace_firecrawl s))))
    as [result|message]; cbn [snd].
  - change (clock (set_article url (text_of result) s2)) with (clock s2). lia.
  - destruct (throttled message); cbn [snd]; [|lia].
    specialize (IH (snd (sleep (Backoff (_FIRECRAWL_MIN_INTERVAL * a)) s2))).
    change (clock (snd (sleep (Backoff (_FIRECRAWL_MIN_INTERVAL * a)) s2)))
      with (clock s2 + _FIRECRAWL_MIN_INTERVAL * a) in IH.
    assert (0 <= _FIRECRAWL_MIN_INTERVAL * a)
      by (unfold _FIRECRAWL_MIN_INTERVAL; lia).
    lia.
Qed.

Lemma attempts_nonneg (max_retries : Z) :
  Forall (fun a => 0 <= a) (Scraper.range 1 (max_retries + 1)).
Proof. apply Forall_forall. intros a Ha%range_In. lia. Qed.

Lemma crawl_article_paced (url : string) (max_retries : Z) (s : State) :
  groq_paced s -> groq_paced (snd (_crawl_article W url max_retries s)).
Proof.
  intros Hp.
  destruct (crawl_article_any W url max_retries s) as ((_ & _ & Hlg & Hgr) & _ & _).
  apply (groq_paced_later s); [exact Hp|exact Hgr|exact Hlg|].
  destruct (_ARTICLE_CACHE s !! url) as [text|] eqn:Hc.
  - rewrite (crawl_article_hit _ _ _ _ _ Hc). cbn. lia.
  - rewrite (crawl_article_miss _ _ _ _ Hc). cbv zeta.
    pose proof (crawl_attempts_clock url _ (attempts_nonneg max_retries)
                  (log_call (Crawl url) s)) as H.
    destruct (crawl_attempts W url (build_opts url) _ _) as [[text|] s'];
      cbn in *; lia.
Qed.

Lemma ask_attempts_paced (text digest : string) (attempts : list Z) :
  Forall (fun a => 0 <= a) attempts ->
  forall s, groq_paced s -> groq_paced (snd (ask_attempts W text digest attempts s)).
Proof.
  induction 1 as [|a rest Ha _ IH]; intros s Hp; [exact Hp|].
  rewrite ask_attempts_cons. cbv zeta.
  destruct (pace_groq_waits s) as (Hr1 & Hl1 & Hc1 & Hw).
  set (s1 := snd (pace_groq s)) in *.
  set (s1' := set_last_groq (clock s1) s1).
  destruct (groq_invoke_state W (PROMPT_TEMPLATE text) s1')
    as (_ & _ & _ & Hlg & _ & Hgr & _ & _).
  assert (clock s1 <= clock (snd (groq_invoke W (PROMPT_TEMPLATE text) s1'))) as Hc2.
  { unfold groq_invoke.
    pose proof (proj2 latency (List.length (groq_requests s1')) (PROMPT_TEMPLATE text)).
    destruct (llm_invoke W _ _) as [ms r]. cbn in *. lia. }
  set (s2 := snd (groq_invoke W (PROMPT_TEMPLATE text) s1')) in *.
  change (groq_requests s1') with (groq_requests s1) in Hgr.
  change (_LAST_GROQ_CALL s1') with (Some (clock s1)) in Hlg.
  change (clock s1') with (clock s1) in Hgr.
  assert (groq_paced s2) as Hp2.
  { destruct Hp as [Hs Hl]. unfold groq_paced, groq_times in *.
    rewrite Hgr, Hlg, Hr1, map_app. cbn [map fst]. split.
    - apply spaced_by_snoc; [exact Hs|].
      destruct (_LAST_GROQ_CALL s) as [last|].
      + destruct Hl as [_ Hf]. specialize (Hw last eq_refl).
        eapply Forall_impl; [|exact Hf]. cbn. intros x Hx. lia.
      + rewrite Hl. constructor.
    - split; [exact Hc2|]. apply Forall_app. split; [|repeat constructor; lia].
      destruct (_LAST_GROQ_CALL s) as [last|].
      + destruct Hl as [Hlc Hf]. eapply Forall_impl; [|exact Hf].
        cbn. intros x Hx. lia.
      + rewrite Hl. constructor. }
  destruct (fst (groq_invoke W (PROMPT_TEMPLATE text) s1')) as [content|message];
    cbn [snd].
  - apply (groq_paced_later s2); [exact Hp2|reflexivity|reflexivity|cbn; lia].
  - destruct (throttled message); cbn [snd]; [|exact Hp2].
    apply IH. apply (groq_paced_later s2); [exact Hp2|reflexivity|reflexivity|].
    cbn. lia.
Qed.

Lemma ask_dric_paced (text : string) (max_retries : Z) (s : State) :
  groq_paced s -> groq_paced (snd (_ask_dric W sha256_hexdigest text max_retries s)).
Proof.
  intros Hp. destruct (truthy text) eqn:Ht.
  2:{ destruct text; [|discriminate]. rewrite ask_dric_empty.
      apply (groq_paced_later s); [exact Hp|reflexivity|reflexivity|cbn; lia]. }
  destruct (_DRIC_CACHE s !! sha256_hexdigest text) as [answer|] eqn:Hc.
  - rewrite (ask_dric_hit _ _ _ _ _ _ Ht Hc).
    apply (groq_paced_later s); [exact Hp|reflexivity|reflexivity|cbn; lia].
  - rewrite (ask_dric_miss _ _ _ _ _ Ht Hc). cbv zeta.
    pose proof (ask_attempts_paced text (sha256_hexdigest text) _
                  (attempts_nonneg max_retries) (log_call (Ask text) s)) as H.
    assert (groq_paced (log_call (Ask text) s)) as Hp0.
    { apply (groq_paced_later s); [exact Hp|reflexivity|reflexivity|cbn; lia]. }
    specialize (H Hp0).
    destruct (ask_attempts W text (sha256_hexdigest text) _ _) as [[answer|] s'];
      cbn [fst snd] in *; [exact H|].
    apply (groq_paced_later s'); [exact H|reflexivity|reflexivity|cbn; lia].
Qed.

Lemma run_op_paced (o : op) (s : State) :
  groq_paced s -> groq_paced (run_op W sha256_hexdigest o s).
Proof.
  intros Hp. destruct o as [url n|text n|row]; cbn [run_op].
  - now apply crawl_article_paced.
  - now apply ask_dric_paced.
  - destruct (_extract_article_url W (scholar_link row)) as [u|] eqn:Hr.
    2:{ now rewrite (process_row_unresolved _ _ _ _ Hr). }
    destruct (truthy u) eqn:Hu.
    2:{ unfold _process_row. now rewrite Hr, Hu. }
    rewrite (process_row_resolved _ _ _ _ _ Hr Hu). cbv zeta.
    pose proof (crawl_article_paced u 3 s Hp) as H1.
    destruct (truthy (fst (_crawl_article W u 3 s))); cbn [snd]; [|exact H1].
    now apply ask_dric_paced.
Qed.

Lemma run_ops_paced (ops : list op) :
  forall s, groq_paced s -> groq_paced (run_ops W sha256_hexdigest ops s).
Proof.
  induction ops as [|o ops IH]; intros s Hp; [exact Hp|].
  cbn [run_ops fold_left]. apply IH. now apply run_op_paced.
Qed.

End Pacing.

Section PacingContract.
Import Text Dric Spec Worlds Invariants.

(** X13.  The spacing that the classifier keeps.  When the services
    take no negative time, then whatever the process has done since
    import, fetches, classifications and whole rows in any order and
    with any retry counts, any two consecutive calls to the model were
    issued at least [_GROQ_MIN_INTERVAL] (one second) apart. *)
Theorem model_calls_spaced (W : World) (sha256_hexdigest : string -> string)
    (ops : list op) :
  nonneg_latency W ->
  spaced_by _GROQ_MIN_INTERVAL
    (groq_times (run_ops W sha256_hexdigest ops at_import)).
Proof.
  intros Hl.
  apply (run_ops_paced W sha256_hexdigest Hl ops at_import).
  split; [exact I|reflexivity].
Qed.

Lemma always_ok_latency : nonneg_latency always_ok.
Proof. split; intros; simpl; lia. Qed.

Lemma model_calls_spaced_witness :
  nonneg_latency always_ok
  /\ groq_times (run_ops always_ok plain_digest
                   [DoAsk "Funded by DRIC." 4; DoAsk "Another article." 4;
                    DoAsk "A third one." 4] at_import)
     = [0; 1000; 2000]
  /\ spaced_by _GROQ_MIN_INTERVAL
       (groq_times (run_ops always_ok plain_digest
                      [DoAsk "Funded by DRIC." 4; DoAsk "Another article." 4;
                       DoAsk "A third one." 4] at_import)).
Proof.
  split; [exact always_ok_latency|]. split; [vm_compute; reflexivity|].
  exact (model_calls_spaced always_ok plain_digest _ always_ok_latency).
Defined.

End PacingContract.

(** ** The link resolver *)

Section Resolver.
Import Text Dric Spec Worlds Invariants.
Variable W : World.

Lemma contains_false (p s : string) : contains p s = false <-> ~ has_infix p s.
Proof.
  rewrite <- contains_infix. destruct (contains p s); split; intros H;
    try discriminate; try reflexivity; try (now intros E). now exfalso.
Qed.

Lemma startswith_false (p s : string) :
  startswith p s = false <-> ~ has_prefix p s.
Proof.
  rewrite <- startswith_prefix. destruct (startswith p s); split; intros H;
    try discriminate; try reflexivity; try (now intros E). now exfalso.
Qed.

Lemma truthy_nonempty (s : string) : truthy s = true <-> s <> EmptyString.
Proof. destruct s; simpl; split; intros H; congruence. Qed.

Lemma fallback_link_sound (page : Citation) (link : string) :
  fallback_link W page = Some link ->
  exists t,
    table_link page = Some t /\ t <> EmptyString
    /\ ((~ has_infix "ir.ucc.edu.gh/xmlui/handle" t /\ link = t
         /\ exists host, netloc W t = Some host
                         /\ ~ has_infix "scholar.google" host)
        \/ (has_infix "ir.ucc.edu.gh/xmlui/handle" t
            /\ exists f, repo_file page = Some (Some f) /\ f <> EmptyString
                 /\ ((has_prefix "/" f /\ urljoin W t f = Some link)
                     \/ (~ has_prefix "/" f /\ link = f)))).
Proof.
  unfold fallback_link. destruct (table_link page) as [t|]; [|discriminate].
  destruct (truthy t) eqn:Ht; [|discriminate]. cbn [negb].
  apply truthy_nonempty in Ht. intros H. exists t. split; [reflexivity|].
  split; [exact Ht|].
  destruct (contains "ir.ucc.edu.gh/xmlui/handle" t) eqn:Hh; cbn [negb] in H.
  - right. apply contains_infix in Hh. split; [exact Hh|].
    destruct (repo_file page) as [[f|]|]; try discriminate.
    destruct (truthy f) eqn:Hf; [|discriminate]. apply truthy_nonempty in Hf.
    exists f. split; [reflexivity|]. split; [exact Hf|].
    destruct (startswith "/" f) eqn:Hs.
    + left. apply startswith_prefix in Hs. auto.
    + right. apply startswith_false in Hs. injection H as <-. auto.
  - left. apply contains_false in Hh. split; [exact Hh|].
    destruct (netloc W t) as [host|]; [|discriminate].
    destruct (contains "scholar.google" host) eqn:Hg; [discriminate|].
    apply contains_false in Hg. injection H as <-. split; [reflexivity|].
    now exists host.
Qed.

(** X14.  What [_extract_article_url] can return.  A returned link is
    the title link, then it starts with "http" and its host does not
    hold "scholar.google"; or the table link, then it is no repository
    handle and its host does not hold "scholar.google"; or, behind a
    handle link, the non-empty file link of the repository page, joined
    to the handle URL when it starts with "/".  The page must have
    opened.  And the title link wins: when it qualifies, it is the
    result whatever the fallbacks hold. *)
Theorem resolver_sound (scholar_url : string) :
  let page := citation_page W scholar_url in
  (forall link,
      _extract_article_url W scholar_url = Some link ->
      opens page = true
      /\ ((title_link page = Some link /\ has_prefix "http" link
           /\ exists host, netloc W link = Some host
                           /\ ~ has_infix "scholar.google" host)
          \/ exists t,
               table_link page = Some t /\ t <> EmptyString
               /\ ((~ has_infix "ir.ucc.edu.gh/xmlui/handle" t /\ link = t
                    /\ exists host, netloc W t = Some host
                                    /\ ~ has_infix "scholar.google" host)
                   \/ (has_infix "ir.ucc.edu.gh/xmlui/handle" t
                       /\ exists f,
                            repo_file page = Some (Some f) /\ f <> EmptyString
                            /\ ((has_prefix "/" f /\ urljoin W t f = Some link)
                                \/ (~ has_prefix "/" f /\ link = f))))))
  /\ (forall link host,
        opens page = true ->
        title_link page = Some link ->
        has_prefix "http" link ->
        netloc W link = Some host ->
        ~ has_infix "scholar.google" host ->
        _extract_article_url W scholar_url = Some link)
  /\ (opens page = false -> _extract_article_url W scholar_url = None).
Proof.
  cbv zeta. unfold _extract_article_url. split; [|split].
  - intros link. destruct (opens (citation_page W scholar_url)); [|discriminate].
    cbn [negb]. intros H. split; [reflexivity|].
    destruct (title_link (citation_page W scholar_url)) as [l|];
      [|right; now apply fallback_link_sound].
    destruct (truthy l && startswith "http" l) eqn:Hl;
      [|right; now apply fallback_link_sound].
    apply andb_prop in Hl. destruct Hl as [_ Hp]. apply startswith_prefix in Hp.
    destruct (netloc W l) as [host|] eqn:Hn; [|discriminate].
    destruct (contains "scholar.google" host) eqn:Hg; cbn [negb] in H;
      [right; now apply fallback_link_sound|].
    apply contains_false in Hg. injection H as <-. left.
    split; [reflexivity|]. split; [exact Hp|]. now exists host.
  - intros link host -> -> Hp Hn Hg. cbn [negb].
    assert (truthy link = true) as ->.
    { destruct Hp as [rest ->]. reflexivity. }
    apply startswith_prefix in Hp. rewrite Hp, Hn. cbn [andb].
    apply contains_false in Hg. now rewrite Hg.
  - now intros ->.
Qed.

End Resolver.

Section ResolverWitness.
Import Text Dric Spec Worlds Invariants.

Lemma resolver_sound_witness :
  _extract_article_url always_ok "https://scholar.example/citations?id=1"
  = Some "https://journal.example/a1"
  /\ opens (citation_page always_ok "https://scholar.example/citations?id=1") = true.
Proof.
  assert (has_prefix "http" "https://journal.example/a1") as Hp
    by (apply startswith_prefix; reflexivity).
  assert (~ has_infix "scholar.google" "journal.example") as Hg
    by (apply contains_false; reflexivity).
  pose proof (proj1 (proj2 (resolver_sound always_ok
                              "https://scholar.example/citations?id=1"))
                "https://journal.example/a1" "journal.example"
                eq_refl eq_refl Hp eq_refl Hg) as H.
  split; [exact H|].
  exact (proj1 (proj1 (resolver_sound always_ok
                         "https://scholar.example/citations?id=1") _ H)).
Defined.

End ResolverWitness.

(** ** A whole classification run *)

Section RunnerFacts.
Import Text Dric Spec Worlds Invariants Runner.
Variable W : World.
Variable sha256_hexdigest : string -> string.




End RunnerFacts.

Section RunnerContract.
Import Text Dric Spec Worlds Invariants Runner.



End RunnerContract.
